(** * OptiBlink: splash screen and emergency-contact dialog

    A shallow embedding of [splash_screen.py].  The Python code drives a Tk
    widget tree; here the toolkit is a small explicit world (the live
    top-level windows, what each one displays, and the ordered trace of
    effects the program performed), the [SplashScreen] object is a record of
    its attributes, and every method is a program in a state-and-exception
    monad over the pair (object, world).  The modal dialog is the state
    machine its three click handlers implement, run by [mainloop] over the
    events the user produces.

    Left out: the logo image and the static labels of both windows,
    [resource_path], whose result depends on the platform's path rules, and
    [show_splash_screen_threaded], which runs [show_splash] on a thread of
    its own. *)

From Stdlib Require Import ZArith NArith List Bool Lia Sorting.Sorted.
From Stdlib Require Import Strings.String Strings.Ascii.
From Stdlib Require Import Floats.PrimFloat.
From stdpp Require Import gmap.
Import ListNotations.

Local Open Scope Z_scope.

(** ** Python values used by the module *)

Module Py.

(** A Python [str] is a sequence of Unicode code points. *)
Definition char := N.
Definition str := list char.

(** Code points of an ASCII literal of the source. *)
Fixpoint u (s : string) : str :=
  match s with
  | EmptyString => []
  | String c s' => N_of_ascii c :: u s'
  end.

(** [str.isspace] on one code point (CPython's [_PyUnicode_IsWhitespace]). *)
Definition isspace (c : char) : bool :=
  ((9 <=? c) && (c <=? 13) || (28 <=? c) && (c <=? 32)
   || (c =? 133) || (c =? 160) || (c =? 5760)
   || (8192 <=? c) && (c <=? 8202)
   || (c =? 8232) || (c =? 8233) || (c =? 8239) || (c =? 8287)
   || (c =? 12288))%N.

Fixpoint lstrip (s : str) : str :=
  match s with
  | c :: s' => if isspace c then lstrip s' else s
  | [] => []
  end.

Definition rstrip (s : str) : str := rev (lstrip (rev s)).

(** [s.strip()]: whitespace removed at both ends, the interior kept. *)
Definition strip (s : str) : str := rstrip (lstrip s).

(** [len(s)] *)
Definition len (s : str) : Z := Z.of_nat (length s).

(** Truth value of a [str] in a condition: empty is false. *)
Definition truthy (s : str) : bool :=
  match s with [] => false | _ :: _ => true end.

(** The ASCII digits '0' to '9'. *)
Definition is_ascii_digit (c : char) : bool := ((48 <=? c) && (c <=? 57))%N.

(** The exceptions the modelled calls can raise. *)
Inductive exn : Type :=
| TclError
| ValueError
| OverflowError
| AttributeError.

(** [float(n)] for a small natural number. *)
Fixpoint float_of_nat (n : nat) : float :=
  match n with
  | O => 0%float
  | S n' => (float_of_nat n' + 1)%float
  end.

End Py.

Import Py.

(** ** The toolkit world *)

Module Tk.

(** Identifier of a top-level window created by [tk.Tk()]. *)
Definition window := nat.

(** A completion callback is host code; the model records that it was
    called, under the name the host gave it. *)
Definition callback := nat.

(** Lines the module writes on standard output. *)
Inductive line : Type :=
| UpdatingProgress (progress : Z) (status : str)
    (* f"Updating progress: {progress}% - {status}" *)
| ErrorUpdatingProgress (e : exn).
    (* f"Error updating progress: {e}" *)

Inductive effect : Type :=
| Stdout (l : line)
| TkCreate (w : window)
| Geometry (w : window) (width height x y : Z)
| Deiconify (w : window)
| VarSet (w : window) (value : Z)
| LabelConfig (w : window) (text : str)
| LabelUpdate (w : window)
| UpdateIdletasks (w : window)
| Update (w : window)
| Destroy (w : window)
| Sleep (secs : float)
| Invoke (cb : callback).

(** What a live splash window displays. *)
Record Surface : Type := mkSurface {
  progress_value : Z;      (* value of the DoubleVar behind the progress bar *)
  status_text : str;       (* text of the status label *)
  mapped : bool;           (* window shown on screen *)
  geometry : Z * Z * Z * Z (* width, height, x, y *)
}.

Record World : Type := mkWorld {
  windows : gmap window Surface; (* the windows that exist *)
  next_window : window;          (* identifier the next [tk.Tk()] gets *)
  screen : Z * Z;                (* winfo_screenwidth, winfo_screenheight *)
  trace : list effect            (* effects so far, oldest first *)
}.

Definition emit (e : effect) (wd : World) : World :=
  mkWorld (windows wd) (next_window wd) (screen wd) (trace wd ++ [e]).

Definition set_windows (m : gmap window Surface) (wd : World) : World :=
  mkWorld m (next_window wd) (screen wd) (trace wd).

Definition with_progress (v : Z) (s : Surface) : Surface :=
  mkSurface v (status_text s) (mapped s) (geometry s).
Definition with_status (t : str) (s : Surface) : Surface :=
  mkSurface (progress_value s) t (mapped s) (geometry s).
Definition with_mapped (b : bool) (s : Surface) : Surface :=
  mkSurface (progress_value s) (status_text s) b (geometry s).
Definition with_geometry (g : Z * Z * Z * Z) (s : Surface) : Surface :=
  mkSurface (progress_value s) (status_text s) (mapped s) g.

(** [time.sleep(secs)] validates its argument before it sleeps.  CPython
    converts the delay to a signed 64-bit count of nanoseconds: NaN is a
    [ValueError], a count out of range an [OverflowError], and a negative
    delay a [ValueError] ("sleep length must be non-negative"). *)
Definition sleep_check (secs : float) : option exn :=
  if is_nan secs then Some ValueError
  else if negb ((-9223372036854775808 <=? secs * 1e9)
                && (secs * 1e9 <? 9223372036854775808))%float
  then Some OverflowError
  else if (secs <? 0)%float then Some ValueError
  else None.

Definition sleep_accepts (secs : float) : bool :=
  match sleep_check secs with None => true | Some _ => false end.

End Tk.

Import Tk.

(** ** State and exceptions *)

Module Monad.

Section WithState.
Variable St : Type.

(** A computation either returns or raises; the state it leaves is kept
    in both cases, as the effects a Python call performed before raising
    are not undone. *)
Definition M (A : Type) : Type := St -> (exn + A) * St.

Definition ret {A} (a : A) : M A := fun st => (inr a, st).

Definition bind {A B} (m : M A) (k : A -> M B) : M B :=
  fun st =>
    match m st with
    | (inr a, st') => k a st'
    | (inl e, st') => (inl e, st')
    end.

Definition raise {A} (e : exn) : M A := fun st => (inl e, st).

(** [try: m  except Exception as e: h e] *)
Definition try_except (m : M unit) (h : exn -> M unit) : M unit :=
  fun st =>
    match m st with
    | (inr a, st') => (inr a, st')
    | (inl e, st') => h e st'
    end.

Definition get : M St := fun st => (inr st, st).
Definition modify (f : St -> St) : M unit := fun st => (inr tt, f st).

(** [for x in l: body x] *)
Fixpoint for_each {A} (l : list A) (body : A -> M unit) : M unit :=
  match l with
  | [] => ret tt
  | x :: l' => bind (body x) (fun _ => for_each l' body)
  end.
End WithState.

Arguments ret {St A} a.
Arguments bind {St A B} m k.
Arguments raise {St A} e.
Arguments try_except {St} m h.
Arguments get {St}.
Arguments modify {St} f.
Arguments for_each {St A} l body.

(** [m] keeps the property [P] of the state, whether it returns or
    raises. *)
Definition preserves {St A} (P : St -> Prop) (m : M St A) : Prop :=
  forall st, P st -> P (snd (m st)).

End Monad.

Import Monad.

Declare Scope py_scope.
Delimit Scope py_scope with py.
Notation "x <- m ;; k" := (bind m (fun x => k))
  (at level 100, m at next level, right associativity) : py_scope.
Notation "m ;;; k" := (bind m (fun _ => k))
  (at level 100, right associativity) : py_scope.

Local Open Scope py_scope.

(** ** Toolkit and library calls, as programs over the world *)

Module TkOps.

Definition perform (e : effect) : M World unit := modify (emit e).

(** [print(...)] *)
Definition print (l : line) : M World unit := perform (Stdout l).

(** [time.sleep(secs)] *)
Definition time_sleep (secs : float) : M World unit :=
  match sleep_check secs with
  | Some e => raise e
  | None => perform (Sleep secs)
  end.

(** [callback()] *)
Definition call (cb : callback) : M World unit := perform (Invoke cb).

(** A new top-level window: nothing displayed yet, not yet shown. *)
Definition blank : Surface := mkSurface 0 [] false (0, 0, 0, 0).

(** [tk.Tk()] *)
Definition Tk_new : M World window :=
  fun wd =>
    let w := next_window wd in
    (inr w,
     mkWorld (<[w := blank]> (windows wd)) (S w) (screen wd)
             (trace wd ++ [TkCreate w])).

(** A call on a widget of window [w]: it changes what the window displays,
    and raises [TclError] when the window has been destroyed. *)
Definition widget_call (w : window) (f : Surface -> Surface) (e : effect)
  : M World unit :=
  fun wd =>
    match windows wd !! w with
    | Some s => (inr tt, emit e (set_windows (<[w := f s]> (windows wd)) wd))
    | None => (inl TclError, wd)
    end.

Definition winfo_screen : M World (Z * Z) := fun wd => (inr (screen wd), wd).

Definition wm_geometry (w : window) (width height x y : Z) : M World unit :=
  widget_call w (with_geometry (width, height, x, y)) (Geometry w width height x y).

Definition deiconify (w : window) : M World unit :=
  widget_call w (with_mapped true) (Deiconify w).

(** [DoubleVar.set(value)] on the variable of window [w]'s progress bar *)
Definition var_set (w : window) (value : Z) : M World unit :=
  widget_call w (with_progress value) (VarSet w value).

(** [Label.config(text=...)] on the status label of window [w]; creating
    the label with its initial text displays that text the same way. *)
Definition label_config (w : window) (text : str) : M World unit :=
  widget_call w (with_status text) (LabelConfig w text).

Definition label_update (w : window) : M World unit :=
  widget_call w (fun s => s) (LabelUpdate w).

Definition update_idletasks (w : window) : M World unit :=
  widget_call w (fun s => s) (UpdateIdletasks w).

Definition update (w : window) : M World unit :=
  widget_call w (fun s => s) (Update w).

(** [root.destroy()] *)
Definition destroy (w : window) : M World unit :=
  fun wd =>
    match windows wd !! w with
    | Some _ => (inr tt, emit (Destroy w) (set_windows (delete w (windows wd)) wd))
    | None => (inl TclError, wd)
    end.

End TkOps.

(** ** class SplashScreen *)

Module Splash.

Import TkOps.

(** The attributes of a [SplashScreen] object.  A widget attribute holds
    the window the widget lives in, [None] before [create_splash]. *)
Record SplashScreen : Type := mkSplash {
  duration : float;
  root : option window;
  progress_var : option window;
  progress_bar : option window;
  status_label : option window
}.

(** The object together with the toolkit world it acts on. *)
Record Env : Type := mkEnv { self : SplashScreen; tk : World }.

(** [SplashScreen.__init__(self, duration)] *)
Definition __init__ (duration : float) : SplashScreen :=
  mkSplash duration None None None None.

Definition in_tk {A} (m : M World A) : M Env A :=
  fun en => let '(r, wd) := m (tk en) in (r, mkEnv (self en) wd).

Definition get_self : M Env SplashScreen := fun en => (inr (self en), en).

Definition set_self (f : SplashScreen -> SplashScreen) : M Env unit :=
  modify (fun en => mkEnv (f (self en)) (tk en)).

Definition set_root (v : option window) : M Env unit :=
  set_self (fun s => mkSplash (duration s) v (progress_var s) (progress_bar s) (status_label s)).
Definition set_progress_var (v : option window) : M Env unit :=
  set_self (fun s => mkSplash (duration s) (root s) v (progress_bar s) (status_label s)).
Definition set_progress_bar (v : option window) : M Env unit :=
  set_self (fun s => mkSplash (duration s) (root s) (progress_var s) v (status_label s)).
Definition set_status_label (v : option window) : M Env unit :=
  set_self (fun s => mkSplash (duration s) (root s) (progress_var s) (progress_bar s) v).

(** [create_splash]: the window, its geometry, the progress variable and
    bar, the status label.  The logo, title, subtitle and version labels
    are static decoration and are left out. *)
Definition create_splash : M Env window :=
  w <- in_tk Tk_new ;;
  set_root (Some w) ;;;
  let width := 500 in
  let height := 500 in
  sc <- in_tk winfo_screen ;;
  let x := (fst sc - width) / 2 in
  let y := (snd sc - height) / 2 in
  in_tk (wm_geometry w width height x y) ;;;
  set_progress_var (Some w) ;;;
  set_progress_bar (Some w) ;;;
  in_tk (label_config w (u "Initializing...")) ;;;
  set_status_label (Some w) ;;;
  ret w.

(** [update_progress(self, value, status_text)] *)
Definition update_progress (value : Z) (status_text : str) : M Env unit :=
  s <- get_self ;;
  match progress_var s, status_label s, root s with
  | Some pv, Some sl, Some r =>
      try_except
        (in_tk (var_set pv value) ;;;
         (if truthy status_text
          then in_tk (label_config sl status_text) ;;; in_tk (label_update sl)
          else ret tt) ;;;
         in_tk (update_idletasks r) ;;;
         in_tk (update r))
        (fun e => in_tk (print (ErrorUpdatingProgress e)))
  | _, _, _ => ret tt
  end.

(** [close_splash(self)] *)
Definition close_splash : M Env unit :=
  s <- get_self ;;
  match root s with
  | Some r => in_tk (destroy r) ;;; set_root None
  | None => ret tt
  end.

(** The scripted sequence of [show_splash]. *)
Definition steps : list (Z * str) :=
  [ (10, u "Loading modules...");
    (25, u "Initializing camera...");
    (40, u "Loading AI models...");
    (60, u "Setting up eye tracking...");
    (80, u "Configuring interface...");
    (95, u "Finalizing setup...");
    (100, u "Ready!") ].

(** [self.duration / len(steps)] *)
Definition step_duration (d : float) : float :=
  (d / float_of_nat (length steps))%float.

(** [show_splash(self, callback)] *)
Definition show_splash (callback : option callback) : M Env unit :=
  s <- get_self ;;
  (match root s with
   | None => create_splash ;;; ret tt
   | Some _ => ret tt
   end) ;;;
  s <- get_self ;;
  (match root s with
   | Some r => in_tk (deiconify r) ;;; in_tk (update r)
   | None => raise AttributeError
   end) ;;;
  s <- get_self ;;
  let step_duration := step_duration (duration s) in
  for_each steps (fun '(progress, status) =>
    in_tk (print (UpdatingProgress progress status)) ;;;
    update_progress progress status ;;;
    in_tk (time_sleep step_duration)) ;;;
  in_tk (time_sleep 0.5%float) ;;;
  close_splash ;;;
  match callback with
  | Some cb => in_tk (call cb)
  | None => ret tt
  end.

(** [show_splash_screen(duration, callback)] *)
Definition show_splash_screen (duration : float) (callback : option callback)
  : M World unit :=
  fun wd =>
    let '(r, en) := show_splash callback (mkEnv (__init__ duration) wd) in
    (r, tk en).

(** A world in which no window exists yet. *)
Definition fresh_world : World := mkWorld ∅ 0%nat (1920, 1080) [].

End Splash.

(** ** show_emergency_contact_dialog *)

Module Dialog.

(** The [result] dict of the dialog: its three keys are fixed. *)
Record ContactResult : Type := mkResult {
  contact : str;
  whatsapp_preference : bool;
  cancelled : bool
}.

(** What the closures of [show_emergency_contact_dialog] share. *)
Record State : Type := mkState {
  open : bool;                (* [dialog] exists: [dialog.destroy()] not yet called *)
  phone_entry : str;          (* content of the entry widget *)
  whatsapp_var : bool;        (* the BooleanVar behind the checkbox *)
  result : ContactResult;
  errors : list (str * str)   (* [messagebox.showerror] calls: title, message *)
}.

(** The state built before [dialog.mainloop()]: the entry holds the default
    country code, the checkbox is clear, the result says cancelled. *)
Definition initial : State :=
  mkState true (u "+91 ") false (mkResult [] false true) [].

Definition set_result (f : ContactResult -> ContactResult) (d : State) : State :=
  mkState (open d) (phone_entry d) (whatsapp_var d) (f (result d)) (errors d).

(** [result['contact'] = v], and likewise for the other two keys *)
Definition set_contact (v : str) : State -> State :=
  set_result (fun r => mkResult v (whatsapp_preference r) (cancelled r)).
Definition set_whatsapp_preference (v : bool) : State -> State :=
  set_result (fun r => mkResult (contact r) v (cancelled r)).
Definition set_cancelled (v : bool) : State -> State :=
  set_result (fun r => mkResult (contact r) (whatsapp_preference r) v).

(** [dialog.destroy()] *)
Definition destroy (d : State) : State :=
  mkState false (phone_entry d) (whatsapp_var d) (result d) (errors d).

(** [messagebox.showerror(title, message)]: the user dismisses the box and
    the handler goes on. *)
Definition showerror (title message : str) (d : State) : State :=
  mkState (open d) (phone_entry d) (whatsapp_var d) (result d)
          (errors d ++ [(title, message)]).

Definition ok_proceed (d : State) : State :=
  let contact := strip (phone_entry d) in
  if len contact <? 10 then
    showerror (u "Invalid Contact")
              (u "Please enter a valid phone number with at least 10 digits.") d
  else
    destroy (set_cancelled false
              (set_whatsapp_preference (whatsapp_var d)
                (set_contact contact d))).

Definition cancel_close (d : State) : State :=
  destroy (set_cancelled true d).

Definition on_closing (d : State) : State :=
  destroy (set_cancelled true d).

(** What the user can do to the open dialog. *)
Inductive event : Type :=
| Typed (text : str)   (* edits the entry; [text] is its new content *)
| ToggleWhatsApp       (* clicks the checkbox *)
| ClickOK
| ClickCancel
| WindowClose.         (* WM_DELETE_WINDOW *)

Definition dispatch (e : event) (d : State) : State :=
  match e with
  | Typed text => mkState (open d) text (whatsapp_var d) (result d) (errors d)
  | ToggleWhatsApp =>
      mkState (open d) (phone_entry d) (negb (whatsapp_var d)) (result d) (errors d)
  | ClickOK => ok_proceed d
  | ClickCancel => cancel_close d
  | WindowClose => on_closing d
  end.

(** [dialog.mainloop()]: events are dispatched while the window exists;
    the loop ends when it is destroyed. *)
Fixpoint mainloop (evs : list event) (d : State) : State :=
  match evs with
  | [] => d
  | e :: evs' => if open d then mainloop evs' (dispatch e d) else d
  end.

(** What the caller of [show_emergency_contact_dialog] observes. *)
Inductive outcome : Type :=
| Blocked                                (* still inside [mainloop] *)
| Returned (r : option ContactResult).   (* the dict, or [None] *)

(** [show_emergency_contact_dialog()], for the events the user produces *)
Definition show_emergency_contact_dialog (evs : list event) : outcome :=
  let d := mainloop evs initial in
  if open d then Blocked
  else Returned (if negb (cancelled (result d)) then Some (result d) else None).

(** Two states that differ at most in the error boxes shown so far. *)
Definition same_but_errors (d1 d2 : State) : Prop :=
  open d1 = open d2 /\ phone_entry d1 = phone_entry d2 /\
  whatsapp_var d1 = whatsapp_var d2 /\ result d1 = result d2.

(** States the dialog can be in. *)
Inductive reachable : State -> Prop :=
| reach_initial : reachable initial
| reach_dispatch d e :
    reachable d -> open d = true -> reachable (dispatch e d).

End Dialog.

(** ** Observations and invariants of the splash controller *)

Module SplashSpec.

Import TkOps Splash.

(** The controller shows window [w]: its three widget attributes are that
    window's and the window exists. *)
Definition showing (w : window) (en : Env) : Prop :=
  root (self en) = Some w /\
  progress_var (self en) = Some w /\
  status_label (self en) = Some w /\
  is_Some (windows (tk en) !! w).

(** Invariant of the object: a root it still refers to is a window that
    exists, with the progress variable and status label made for it. *)
Definition wf (en : Env) : Prop :=
  forall w, root (self en) = Some w -> showing w en.

(** The public methods of the class. *)
Inductive method : Type :=
| CreateSplash
| UpdateProgress (value : Z) (status_text : str)
| ShowSplash (cb : option callback)
| CloseSplash.

Definition run_method (m : method) : M Env unit :=
  match m with
  | CreateSplash => create_splash ;;; ret tt
  | UpdateProgress value status_text => update_progress value status_text
  | ShowSplash cb => show_splash cb
  | CloseSplash => close_splash
  end.

(** States a controller can be in: built by [__init__] in some world, then
    any methods called on it, whether they return or raise. *)
Inductive reachable : Env -> Prop :=
| reach_init d wd : reachable (mkEnv (__init__ d) wd)
| reach_call en m : reachable en -> reachable (snd (run_method m en)).

(** The (percentage, label) pairs a trace printed. *)
Fixpoint printed (tr : list effect) : list (Z * str) :=
  match tr with
  | [] => []
  | Stdout (UpdatingProgress p s) :: tr' => (p, s) :: printed tr'
  | _ :: tr' => printed tr'
  end.

(** The (percentage, label) pairs a trace put on display: each value set
    on a progress variable, with the label text set right after it. *)
Fixpoint displayed (tr : list effect) : list (Z * str) :=
  match tr with
  | [] => []
  | VarSet _ v :: tr' =>
      match tr' with
      | LabelConfig _ t :: _ => (v, t) :: displayed tr'
      | _ => (v, []) :: displayed tr'
      end
  | _ :: tr' => displayed tr'
  end.

(** How many times a trace called a completion callback. *)
Fixpoint invocations (tr : list effect) : nat :=
  match tr with
  | [] => 0%nat
  | Invoke _ :: tr' => S (invocations tr')
  | _ :: tr' => invocations tr'
  end.

(** How many windows a trace created. *)
Fixpoint creations (tr : list effect) : nat :=
  match tr with
  | [] => 0%nat
  | TkCreate _ :: tr' => S (creations tr')
  | _ :: tr' => creations tr'
  end.

(** Whether an effect is the error line of [update_progress]. *)
Definition is_error_line (e : effect) : bool :=
  match e with Stdout (ErrorUpdatingProgress _) => true | _ => false end.

(** The effects of one [update_progress(value, status_text)] on a window
    that exists, for a non-empty text. *)
Definition shown (w : window) (st : Z * str) : list effect :=
  [VarSet w (fst st); LabelConfig w (snd st); LabelUpdate w;
   UpdateIdletasks w; Update w].

(** The effects of one iteration of the loop of [show_splash]. *)
Definition iteration (w : window) (d : float) (st : Z * str) : list effect :=
  Stdout (UpdatingProgress (fst st) (snd st)) :: shown w st ++ [Sleep d].

(** The effects of [create_splash] making window [w] on a screen [sc]. *)
Definition created (w : window) (sc : Z * Z) : list effect :=
  [TkCreate w;
   Geometry w 500 500 ((fst sc - 500) / 2) ((snd sc - 500) / 2);
   LabelConfig w (u "Initializing...")].

(** [en'] is [en] after the effects [tr] and nothing else: the same
    object, the same windows in existence, no window allocated. *)
Definition runs (tr : list effect) (en en' : Env) : Prop :=
  self en' = self en /\
  next_window (tk en') = next_window (tk en) /\
  screen (tk en') = screen (tk en) /\
  dom (windows (tk en')) = dom (windows (tk en)) /\
  trace (tk en') = trace (tk en) ++ tr.

(** The window [show_splash] runs on: the one the object has, or the one
    [create_splash] is about to make. *)
Definition target (en : Env) : window :=
  match root (self en) with
  | Some r => r
  | None => next_window (tk en)
  end.

(** The effects by which [show_splash] gets its window. *)
Definition opening (en : Env) : list effect :=
  match root (self en) with
  | Some _ => []
  | None => created (next_window (tk en)) (screen (tk en))
  end.

Definition closing (w : window) (cb : option callback) : list effect :=
  [Sleep 0.5%float; Destroy w] ++
  match cb with Some c => [Invoke c] | None => [] end.

(** [show_splash] once the object has its window: everything after the
    guarded [create_splash]. *)
Definition play (callback : option callback) : M Env unit :=
  s <- get_self ;;
  (match root s with
   | Some r => in_tk (deiconify r) ;;; in_tk (update r)
   | None => raise AttributeError
   end) ;;;
  s <- get_self ;;
  let step_duration := step_duration (duration s) in
  for_each steps (fun '(progress, status) =>
    in_tk (print (UpdatingProgress progress status)) ;;;
    update_progress progress status ;;;
    in_tk (time_sleep step_duration)) ;;;
  in_tk (time_sleep 0.5%float) ;;;
  close_splash ;;;
  match callback with
  | Some cb => in_tk (call cb)
  | None => ret tt
  end.

(** The object has had no window but [w], and the toolkit has allocated
    no window beyond [n]. *)
Definition keeps (w n : window) (en : Env) : Prop :=
  next_window (tk en) = n /\
  (root (self en) = Some w \/ root (self en) = None).

(** A controller on which [create_splash] has been called once. *)
Definition sample : Env :=
  snd (run_method CreateSplash (mkEnv (__init__ 3%float) fresh_world)).

(** All the effects of a [show_splash] that runs to its end. *)
Definition script (en : Env) (cb : option callback) : list effect :=
  let w := target en in
  opening en ++ [Deiconify w; Update w] ++
  flat_map (iteration w (step_duration (duration (self en)))) steps ++
  closing w cb.

End SplashSpec.

(** ** Further observations *)

Module PyObs.

(** Whether a string begins, or ends, with a whitespace character. *)
Definition starts_with_space (s : str) : bool :=
  match s with c :: _ => isspace c | [] => false end.

Definition ends_with_space (s : str) : bool := starts_with_space (rev s).


End PyObs.

Module SplashObs.

Import TkOps Splash SplashSpec.

(** The windows the calls of the object go to: those its root, progress
    variable and status label refer to. *)
Definition owned (en : Env) (w : window) : Prop :=
  root (self en) = Some w \/ progress_var (self en) = Some w \/
  status_label (self en) = Some w.

(** The object's calls go to windows of [O] only, and a window outside
    [O] exists exactly when it exists in [m0]. *)
Definition framed (O : window -> Prop) (m0 : gmap window Surface) (en : Env) : Prop :=
  (forall w, owned en w -> O w) /\
  (forall w, ~ O w -> (is_Some (windows (tk en) !! w) <-> is_Some (m0 !! w))).

(** Window identifiers the toolkit has not handed out yet are not in use. *)
Definition tidy (wd : World) : Prop :=
  forall w, (next_window wd <= w)%nat -> windows wd !! w = None.


(** The effects of a [show_splash] up to the [time.sleep] that refuses its
    delay: the first step is on display and nothing more. *)
Definition aborted (en : Env) : list effect :=
  opening en ++ [Deiconify (target en); Update (target en);
                 Stdout (UpdatingProgress 10 (u "Loading modules..."))] ++
  shown (target en) (10, u "Loading modules...").

End SplashObs.

Module DialogObs.

Import PyObs Dialog.

(** What the entry holds after the events [evs] on a dialog that stays
    open: the text typed last, or what it held before. *)
Definition entry_after (evs : list event) (text : str) : str :=
  fold_left (fun t e => match e with Typed x => x | _ => t end) evs text.

(** Whether the checkbox is ticked after the events [evs]: each click
    flips it. *)
Definition checked_after (evs : list event) (b : bool) : bool :=
  fold_left (fun c e => match e with ToggleWhatsApp => negb c | _ => c end) evs b.

(** The events that edit the form without submitting or dismissing it. *)
Definition is_edit (e : event) : bool :=
  match e with
  | Typed _ | ToggleWhatsApp => true
  | ClickOK | ClickCancel | WindowClose => false
  end.

(** Two states that differ at most in the whitespace around the entry
    text. *)
Definition same_but_padding (d1 d2 : State) : Prop :=
  open d1 = open d2 /\ strip (phone_entry d1) = strip (phone_entry d2) /\
  whatsapp_var d1 = whatsapp_var d2 /\ result d1 = result d2 /\
  errors d1 = errors d2.

(** The geometry [show_emergency_contact_dialog] gives its window on a
    screen [sc]: 450 by 550, at x = (screen_width - 450) // 2 and
    y = (screen_height - 550) // 2. *)
Definition dialog_geometry (sc : Z * Z) : Z * Z * Z * Z :=
  (450, 550, (fst sc - 450) / 2, (snd sc - 550) / 2).


End DialogObs.

(** * Properties *)

(** ** The monad *)

Module MonadFacts.

Section Preservation.
Context {St : Type} (P : St -> Prop).

Lemma preserves_ret {A} (a : A) : preserves P (ret a).
Proof. intros st H. exact H. Qed.

Lemma preserves_raise {A} (e : exn) : preserves P (@raise St A e).
Proof. intros st H. exact H. Qed.

Lemma preserves_bind {A B} (m : M St A) (k : A -> M St B) :
  preserves P m -> (forall a, preserves P (k a)) -> preserves P (bind m k).
Proof.
  intros Hm Hk st H. unfold bind.
  specialize (Hm st H). destruct (m st) as [[e | a] st']; simpl in *.
  - exact Hm.
  - apply Hk. exact Hm.
Qed.

Lemma preserves_try (m : M St unit) (h : exn -> M St unit) :
  preserves P m -> (forall e, preserves P (h e)) ->
  preserves P (try_except m h).
Proof.
  intros Hm Hh st H. unfold try_except.
  specialize (Hm st H). destruct (m st) as [[e | a] st']; simpl in *.
  - apply Hh. exact Hm.
  - exact Hm.
Qed.

Lemma preserves_for_each {A} (l : list A) (body : A -> M St unit) :
  (forall x, preserves P (body x)) -> preserves P (for_each l body).
Proof.
  intros Hb. induction l as [| x l IH]; simpl.
  - apply preserves_ret.
  - apply preserves_bind; [apply Hb | intros _; exact IH].
Qed.

Lemma preserves_modify (f : St -> St) :
  (forall st, P st -> P (f st)) -> preserves P (modify f).
Proof. intros Hf st H. simpl. apply Hf. exact H. Qed.
End Preservation.

End MonadFacts.

(** ** The splash controller *)

Module SplashFacts.

Import TkOps Splash SplashSpec MonadFacts.

Lemma bind_returns {St A B} (m : M St A) (k : A -> M St B) st a st' :
  m st = (inr a, st') -> bind m k st = k a st'.
Proof. intros H. unfold bind. rewrite H. reflexivity. Qed.

Lemma bind_raises {St A B} (m : M St A) (k : A -> M St B) st e st' :
  m st = (inl e, st') -> bind m k st = (inl e, st').
Proof. intros H. unfold bind. rewrite H. reflexivity. Qed.

Lemma runs_nil en : runs [] en en.
Proof. unfold runs. rewrite app_nil_r. auto. Qed.

Lemma runs_app t1 t2 a b c :
  runs t1 a b -> runs t2 b c -> runs (t1 ++ t2) a c.
Proof.
  intros (Hs1 & Hn1 & Hc1 & Hd1 & Ht1) (Hs2 & Hn2 & Hc2 & Hd2 & Ht2).
  unfold runs. rewrite Hs2, Hn2, Hc2, Hd2, Ht2, Ht1, app_assoc. auto.
Qed.

Lemma showing_runs w tr en en' :
  showing w en -> runs tr en en' -> showing w en'.
Proof.
  intros (Hr & Hp & Hl & Hw) (Hs & _ & _ & Hd & _).
  unfold showing. rewrite Hs. repeat split; trivial.
  apply elem_of_dom. rewrite Hd. apply elem_of_dom. exact Hw.
Qed.

(** *** Calls that only touch the world *)

Lemma widget_call_live w f e en :
  is_Some (windows (tk en) !! w) ->
  exists en', in_tk (widget_call w f e) en = (inr tt, en') /\ runs [e] en en'.
Proof.
  intros [s Hs]. unfold in_tk, widget_call. rewrite Hs.
  eexists. split; [reflexivity |].
  unfold runs; simpl. repeat split; trivial.
  apply dom_insert_lookup_L. eauto.
Qed.

Lemma perform_runs e en :
  in_tk (perform e) en = (inr tt, mkEnv (self en) (emit e (tk en))) /\
  runs [e] en (mkEnv (self en) (emit e (tk en))).
Proof. split; [reflexivity |]. unfold runs; simpl. auto. Qed.

Lemma time_sleep_accepted secs en :
  sleep_accepts secs = true ->
  exists en', in_tk (time_sleep secs) en = (inr tt, en') /\ runs [Sleep secs] en en'.
Proof.
  unfold sleep_accepts, time_sleep. intros H.
  destruct (sleep_check secs); [discriminate |].
  eexists. apply perform_runs.
Qed.

Lemma time_sleep_rejected secs en :
  sleep_accepts secs = false ->
  exists e, in_tk (time_sleep secs) en = (inl e, en).
Proof.
  unfold sleep_accepts, time_sleep. intros H.
  destruct (sleep_check secs) as [e |]; [| discriminate].
  exists e. destruct en; reflexivity.
Qed.

(** *** update_progress *)

(** Without a root the guard fails and nothing at all happens. *)
Lemma update_progress_no_root value status_text en :
  root (self en) = None ->
  update_progress value status_text en = (inr tt, en).
Proof.
  intros H. unfold update_progress, get_self, bind. simpl.
  destruct (progress_var (self en)), (status_label (self en));
    rewrite ?H; reflexivity.
Qed.

(** On a window that exists, one update puts the value and the label on
    display and redraws. *)
Lemma update_progress_showing w value status_text en :
  showing w en -> truthy status_text = true ->
  exists en', update_progress value status_text en = (inr tt, en') /\
              runs (shown w (value, status_text)) en en'.
Proof.
  intros Hsh Ht.
  destruct (Hsh) as (Hr & Hp & Hl & Hw).
  destruct (widget_call_live w (with_progress value) (VarSet w value) en Hw)
    as (e1 & E1 & R1).
  assert (S1 := showing_runs _ _ _ _ Hsh R1).
  destruct (widget_call_live w (with_status status_text)
              (LabelConfig w status_text) e1 (proj2 (proj2 (proj2 S1))))
    as (e2 & E2 & R2).
  assert (S2 := showing_runs _ _ _ _ S1 R2).
  destruct (widget_call_live w (fun s => s) (LabelUpdate w) e2
              (proj2 (proj2 (proj2 S2)))) as (e3 & E3 & R3).
  assert (S3 := showing_runs _ _ _ _ S2 R3).
  destruct (widget_call_live w (fun s => s) (UpdateIdletasks w) e3
              (proj2 (proj2 (proj2 S3)))) as (e4 & E4 & R4).
  assert (S4 := showing_runs _ _ _ _ S3 R4).
  destruct (widget_call_live w (fun s => s) (Update w) e4
              (proj2 (proj2 (proj2 S4)))) as (e5 & E5 & R5).
  exists e5. split.
  - unfold update_progress. unfold get_self at 1. unfold bind at 1.
    rewrite Hr, Hp, Hl, Ht. unfold try_except.
    unfold var_set, label_config, label_update, update_idletasks, update.
    rewrite (bind_returns _ _ _ _ _ E1).
    rewrite (bind_returns _ _ e1 tt e3).
    + rewrite (bind_returns _ _ _ _ _ E4). rewrite E5. reflexivity.
    + rewrite (bind_returns _ _ _ _ _ E2). exact E3.
  - change (shown w (value, status_text))
      with ([VarSet w value] ++ [LabelConfig w status_text] ++ [LabelUpdate w]
            ++ [UpdateIdletasks w] ++ [Update w]).
    eauto using runs_app.
Qed.

(** The loop of [show_splash] over any list of steps with non-empty
    labels, on a window that exists and with a delay [time.sleep] takes. *)
Lemma loop_runs w d (l : list (Z * str)) : forall en,
  showing w en -> sleep_accepts d = true ->
  Forall (fun st => truthy (snd st) = true) l ->
  exists en',
    for_each l (fun '(progress, status) =>
      in_tk (print (UpdatingProgress progress status)) ;;;
      update_progress progress status ;;;
      in_tk (time_sleep d)) en = (inr tt, en') /\
    runs (flat_map (iteration w d) l) en en'.
Proof.
  induction l as [| [p t] l IH]; intros en Hsh Hd Hl.
  - exists en. split; [reflexivity | apply runs_nil].
  - inversion Hl as [| ? ? Ht Hl']; subst. simpl in Ht.
    destruct (perform_runs (Stdout (UpdatingProgress p t)) en) as [E1 R1].
    set (e1 := mkEnv (self en) (emit (Stdout (UpdatingProgress p t)) (tk en))) in *.
    assert (S1 := showing_runs _ _ _ _ Hsh R1).
    destruct (update_progress_showing w p t e1 S1 Ht) as (e2 & E2 & R2).
    assert (S2 := showing_runs _ _ _ _ S1 R2).
    destruct (time_sleep_accepted d e2 Hd) as (e3 & E3 & R3).
    assert (S3 := showing_runs _ _ _ _ S2 R3).
    destruct (IH e3 S3 Hd Hl') as (e4 & E4 & R4).
    exists e4. split.
    + cbn [for_each]. unfold print.
      rewrite (bind_returns _ _ en tt e3); [exact E4 |].
      rewrite (bind_returns _ _ _ _ _ E1).
      rewrite (bind_returns _ _ _ _ _ E2). exact E3.
    + cbn [flat_map]. unfold iteration at 1. cbn [fst snd].
      change (Stdout (UpdatingProgress p t) :: shown w (p, t) ++ [Sleep d])
        with ([Stdout (UpdatingProgress p t)] ++ shown w (p, t) ++ [Sleep d]).
      rewrite <- !app_assoc.
      eauto using runs_app.
Qed.

Lemma steps_labelled : Forall (fun st => truthy (snd st) = true) steps.
Proof. repeat constructor. Qed.

(** *** create_splash and close_splash *)

(** [create_splash] always makes a new window, the next one the toolkit
    has to give, and points the object at it. *)
Lemma create_splash_allocates en :
  exists en',
    create_splash en = (inr (next_window (tk en)), en') /\
    showing (next_window (tk en)) en' /\
    duration (self en') = duration (self en) /\
    next_window (tk en') = S (next_window (tk en)) /\
    screen (tk en') = screen (tk en) /\
    trace (tk en') = trace (tk en) ++ created (next_window (tk en)) (screen (tk en)) /\
    (forall w', w' <> next_window (tk en) ->
                windows (tk en') !! w' = windows (tk en) !! w').
Proof.
  destruct en as [s wd].
  unfold create_splash, bind, in_tk, Tk_new, set_root, set_progress_var,
    set_progress_bar, set_status_label, set_self, modify, winfo_screen,
    wm_geometry, label_config, widget_call, ret.
  cbn. rewrite lookup_insert_eq. cbn. rewrite lookup_insert_eq. cbn.
  eexists. split; [reflexivity |].
  unfold showing, created; cbn.
  rewrite lookup_insert_eq, <- !app_assoc. cbn.
  repeat split; eauto.
  intros w' Hw'. rewrite !lookup_insert_ne by congruence. reflexivity.
Qed.

Lemma close_splash_no_root en :
  root (self en) = None -> close_splash en = (inr tt, en).
Proof.
  intros H. unfold close_splash, get_self, bind. rewrite H. reflexivity.
Qed.

Lemma close_splash_showing w en :
  showing w en ->
  exists en',
    close_splash en = (inr tt, en') /\
    root (self en') = None /\
    duration (self en') = duration (self en) /\
    windows (tk en') = delete w (windows (tk en)) /\
    next_window (tk en') = next_window (tk en) /\
    trace (tk en') = trace (tk en) ++ [Destroy w].
Proof.
  intros (Hr & _ & _ & [sf Hw]). destruct en as [s wd]. simpl in *.
  unfold close_splash, get_self, bind, in_tk, destroy, set_root, set_self, modify.
  simpl. rewrite Hr. simpl. rewrite Hw. simpl.
  eexists. split; [reflexivity |]. simpl. auto.
Qed.

(** *** show_splash *)

Lemma show_splash_play cb :
  show_splash cb =
  (s <- get_self ;;
   (match root s with
    | None => create_splash ;;; ret tt
    | Some _ => ret tt
    end) ;;;
   play cb).
Proof. reflexivity. Qed.

Lemma play_showing cb w en :
  showing w en ->
  sleep_accepts (step_duration (duration (self en))) = true ->
  exists en',
    play cb en = (inr tt, en') /\
    root (self en') = None /\
    windows (tk en') !! w = None /\
    next_window (tk en') = next_window (tk en) /\
    trace (tk en') =
      trace (tk en) ++ [Deiconify w; Update w] ++
      flat_map (iteration w (step_duration (duration (self en)))) steps ++
      closing w cb.
Proof.
  intros Hsh Hd.
  destruct (widget_call_live w (with_mapped true) (Deiconify w) en
              (proj2 (proj2 (proj2 Hsh)))) as (e1 & E1 & R1).
  assert (S1 := showing_runs _ _ _ _ Hsh R1).
  destruct (widget_call_live w (fun s => s) (Update w) e1
              (proj2 (proj2 (proj2 S1)))) as (e2 & E2 & R2).
  assert (S2 := showing_runs _ _ _ _ S1 R2).
  assert (D2 : duration (self e2) = duration (self en)).
  { destruct R1 as (H1 & _), R2 as (H2 & _). rewrite H2, H1. reflexivity. }
  destruct (loop_runs w (step_duration (duration (self en))) steps e2 S2 Hd
              steps_labelled) as (e3 & E3 & R3).
  assert (S3 := showing_runs _ _ _ _ S2 R3).
  destruct (time_sleep_accepted 0.5%float e3 eq_refl) as (e4 & E4 & R4).
  assert (S4 := showing_runs _ _ _ _ S3 R4).
  destruct (close_splash_showing w e4 S4) as (e5 & E5 & Hroot & _ & Hwin & Hnext & Htr).
  assert (R14 := runs_app _ _ _ _ _ R1 (runs_app _ _ _ _ _ R2 (runs_app _ _ _ _ _ R3 R4))).
  destruct R14 as (_ & Hn14 & _ & _ & Ht14).
  assert (Hplay : forall k : M Env unit,
    (s <- get_self ;;
     (match root s with
      | Some r => in_tk (deiconify r) ;;; in_tk (update r)
      | None => raise AttributeError
      end) ;;;
     s <- get_self ;;
     let step_duration := step_duration (duration s) in
     for_each steps (fun '(progress, status) =>
       in_tk (print (UpdatingProgress progress status)) ;;;
       update_progress progress status ;;;
       in_tk (time_sleep step_duration)) ;;;
     in_tk (time_sleep 0.5%float) ;;;
     close_splash ;;;
     k) en = k e5).
  { intros k. unfold get_self at 1. unfold bind at 1.
    destruct Hsh as (Hr & _). rewrite Hr.
    rewrite (bind_returns _ _ en tt e2).
    - unfold get_self at 1. unfold bind at 1. cbn zeta. rewrite D2.
      rewrite (bind_returns _ _ _ _ _ E3).
      rewrite (bind_returns _ _ _ _ _ E4).
      rewrite (bind_returns _ _ _ _ _ E5). reflexivity.
    - unfold deiconify, update. rewrite (bind_returns _ _ _ _ _ E1). exact E2. }
  unfold play. rewrite Hplay. unfold closing.
  destruct cb as [c |].
  - eexists. split; [apply perform_runs |]. simpl.
    rewrite Hroot, Hwin, Hnext, Hn14, Htr, Ht14, lookup_delete_eq.
    repeat split; trivial. rewrite <- !app_assoc. reflexivity.
  - exists e5. split; [reflexivity |].
    rewrite Hroot, Hwin, Hnext, Hn14, Htr, Ht14, lookup_delete_eq.
    repeat split; trivial. rewrite <- !app_assoc. reflexivity.
Qed.

(** A [show_splash] whose delays [time.sleep] takes runs to its end: the
    effects are those of [script], the window is destroyed and the object
    has no root left. *)
Lemma show_splash_completes cb en :
  wf en ->
  sleep_accepts (step_duration (duration (self en))) = true ->
  exists en',
    show_splash cb en = (inr tt, en') /\
    root (self en') = None /\
    windows (tk en') !! target en = None /\
    trace (tk en') = trace (tk en) ++ script en cb.
Proof.
  intros Hwf Hd. rewrite show_splash_play.
  unfold get_self at 1. unfold bind at 1. unfold script, target, opening.
  destruct (root (self en)) as [r |] eqn:Hr.
  - destruct (play_showing cb r en (Hwf r Hr) Hd) as (e' & E & H1 & H2 & _ & H4).
    exists e'. unfold bind, ret. repeat split; trivial.
  - destruct (create_splash_allocates en) as (e0 & E0 & S0 & D0 & _ & _ & T0 & _).
    rewrite <- D0 in Hd.
    destruct (play_showing cb _ e0 S0 Hd) as (e' & E & H1 & H2 & _ & H4).
    exists e'. rewrite (bind_returns _ _ en tt e0).
    + repeat split; trivial. rewrite H4, T0, D0, <- !app_assoc. reflexivity.
    + rewrite (bind_returns _ _ _ _ _ E0). reflexivity.
Qed.

(** *** Properties every method keeps *)

Section Invariant.
Variable P : Env -> Prop.
Hypothesis P_widget : forall w f e, preserves P (in_tk (widget_call w f e)).
Hypothesis P_perform : forall e, preserves P (in_tk (perform e)).
Hypothesis P_close : preserves P close_splash.

Lemma get_self_preserves : preserves P get_self.
Proof. intros en H. exact H. Qed.

Lemma time_sleep_preserves secs : preserves P (in_tk (time_sleep secs)).
Proof.
  unfold time_sleep. destruct (sleep_check secs) as [e |].
  - intros [s wd] H. exact H.
  - apply P_perform.
Qed.

Lemma update_progress_preserves value status_text :
  preserves P (update_progress value status_text).
Proof.
  unfold update_progress.
  apply preserves_bind; [apply get_self_preserves | intros s].
  destruct (progress_var s), (status_label s), (root s);
    try apply preserves_ret.
  apply preserves_try.
  - apply preserves_bind; [apply P_widget | intros _].
    apply preserves_bind.
    + destruct (truthy status_text); [| apply preserves_ret].
      apply preserves_bind; [apply P_widget | intros _; apply P_widget].
    + intros _. apply preserves_bind; [apply P_widget | intros _; apply P_widget].
  - intros e. apply P_perform.
Qed.

Lemma play_preserves cb : preserves P (play cb).
Proof.
  unfold play.
  apply preserves_bind; [apply get_self_preserves | intros s].
  apply preserves_bind.
  { destruct (root s); [| apply preserves_raise].
    apply preserves_bind; [apply P_widget | intros _; apply P_widget]. }
  intros _. apply preserves_bind; [apply get_self_preserves | intros s'].
  cbn zeta. apply preserves_bind.
  { apply preserves_for_each. intros [p t].
    apply preserves_bind; [apply P_perform | intros _].
    apply preserves_bind; [apply update_progress_preserves | intros _].
    apply time_sleep_preserves. }
  intros _. apply preserves_bind; [apply time_sleep_preserves | intros _].
  apply preserves_bind; [apply P_close | intros _].
  destruct cb; [apply P_perform | apply preserves_ret].
Qed.

Hypothesis P_create : preserves P create_splash.

Lemma show_splash_preserves cb : preserves P (show_splash cb).
Proof.
  rewrite show_splash_play.
  apply preserves_bind; [apply get_self_preserves | intros s].
  apply preserves_bind; [| intros _; apply play_preserves].
  destruct (root s); [apply preserves_ret |].
  apply preserves_bind; [apply P_create | intros _; apply preserves_ret].
Qed.

Lemma run_method_preserves m : preserves P (run_method m).
Proof.
  destruct m; simpl.
  - apply preserves_bind; [apply P_create | intros _; apply preserves_ret].
  - apply update_progress_preserves.
  - apply show_splash_preserves.
  - apply P_close.
Qed.
End Invariant.

(** *** The object invariant *)

Lemma wf_same en en' :
  self en' = self en -> dom (windows (tk en')) = dom (windows (tk en)) ->
  wf en -> wf en'.
Proof.
  intros Hs Hd Hwf w Hr. rewrite Hs in Hr.
  destruct (Hwf w Hr) as (H1 & H2 & H3 & H4).
  unfold showing. rewrite Hs. repeat split; trivial.
  apply elem_of_dom. rewrite Hd. apply elem_of_dom. exact H4.
Qed.

Lemma widget_call_wf w f e : preserves wf (in_tk (widget_call w f e)).
Proof.
  intros en Hwf. unfold in_tk, widget_call.
  destruct (windows (tk en) !! w) as [sf |] eqn:Hw; simpl.
  - apply (wf_same en); simpl; trivial.
    apply dom_insert_lookup_L. eauto.
  - destruct en. exact Hwf.
Qed.

Lemma perform_wf e : preserves wf (in_tk (perform e)).
Proof. intros en Hwf. apply (wf_same en); trivial. Qed.

Lemma close_splash_wf : preserves wf close_splash.
Proof.
  intros en Hwf. destruct (root (self en)) as [r |] eqn:Hr.
  - destruct (close_splash_showing r en (Hwf r Hr)) as (e' & E & Hroot & _).
    rewrite E. simpl. intros w Hw. congruence.
  - rewrite close_splash_no_root by exact Hr. exact Hwf.
Qed.

Lemma create_splash_wf : preserves wf create_splash.
Proof.
  intros en _. destruct (create_splash_allocates en) as (e' & E & Hsh & _).
  rewrite E. simpl. intros w Hw.
  destruct Hsh as (Hr & Hrest). rewrite Hr in Hw. injection Hw as <-.
  split; trivial.
Qed.

(** Every state a controller can get into satisfies the invariant. *)
Lemma reachable_wf en : reachable en -> wf en.
Proof.
  induction 1 as [d wd | en m _ IH].
  - intros w Hw. discriminate.
  - revert IH. apply run_method_preserves.
    + apply widget_call_wf.
    + apply perform_wf.
    + apply close_splash_wf.
    + apply create_splash_wf.
Qed.

(** *** Windows are allocated by create_splash only *)

Lemma widget_call_keeps w n w' f e :
  preserves (keeps w n) (in_tk (widget_call w' f e)).
Proof.
  intros en H. unfold in_tk, widget_call.
  destruct (windows (tk en) !! w'); simpl; [exact H | destruct en; exact H].
Qed.

Lemma perform_keeps w n e : preserves (keeps w n) (in_tk (perform e)).
Proof. intros en H. exact H. Qed.

Lemma close_splash_keeps w n : preserves (keeps w n) close_splash.
Proof.
  intros [s wd] [Hn Hr]. unfold keeps in *. simpl in *.
  unfold close_splash, get_self, bind, in_tk, destroy, set_root, set_self, modify.
  simpl. destruct (root s) as [r |] eqn:E; simpl; [| rewrite ?E; auto].
  destruct (windows wd !! r); simpl; rewrite ?E; auto.
Qed.

Lemma printed_script en cb : printed (script en cb) = steps.
Proof.
  unfold script, opening, closing.
  destruct (root (self en)), cb; reflexivity.
Qed.

Lemma displayed_script en cb : displayed (script en cb) = steps.
Proof.
  unfold script, opening, closing.
  destruct (root (self en)), cb; reflexivity.
Qed.

(** C2, as amended: for every total duration whose per-step delay
    [duration / 7] is one [time.sleep] takes, a [show_splash] on any
    controller runs to its end and reports exactly the percentages
    10, 25, 40, 60, 80, 95, 100 in that order, each with its fixed label,
    both on standard output and on the display; the sequence is the same
    for all such durations. *)
Theorem show_splash_reports (cb : option callback) (en : Env) :
  reachable en ->
  sleep_accepts (step_duration (duration (self en))) = true ->
  exists en' tr,
    show_splash cb en = (inr tt, en') /\
    trace (tk en') = trace (tk en) ++ tr /\
    printed tr =
      [ (10, u "Loading modules..."); (25, u "Initializing camera...");
        (40, u "Loading AI models..."); (60, u "Setting up eye tracking...");
        (80, u "Configuring interface..."); (95, u "Finalizing setup...");
        (100, u "Ready!") ] /\
    displayed tr = printed tr.
Proof.
  intros Hre Hd.
  destruct (show_splash_completes cb en (reachable_wf en Hre) Hd)
    as (en' & E & _ & _ & Ht).
  exists en', (script en cb).
  rewrite printed_script, displayed_script. auto.
Qed.

Lemma show_splash_reports_witness :
  reachable (mkEnv (__init__ 3%float) fresh_world) /\
  sleep_accepts (step_duration 3%float) = true /\
  exists en' tr,
    show_splash (Some 1%nat) (mkEnv (__init__ 3%float) fresh_world) = (inr tt, en') /\
    trace (tk en') = trace fresh_world ++ tr /\
    printed tr =
      [ (10, u "Loading modules..."); (25, u "Initializing camera...");
        (40, u "Loading AI models..."); (60, u "Setting up eye tracking...");
        (80, u "Configuring interface..."); (95, u "Finalizing setup...");
        (100, u "Ready!") ] /\
    displayed tr = printed tr.
Proof.
  split; [constructor |]. split; [reflexivity |].
  apply (show_splash_reports (Some 1%nat) (mkEnv (__init__ 3%float) fresh_world));
    [constructor | reflexivity].
Defined.

(** C2, counterexample: with the total duration -1.0 the first
    [time.sleep] raises [ValueError]; the run has then reported the first
    step only, not the seven. *)
Lemma show_splash_negative_duration_reports :
  let r := show_splash None (mkEnv (__init__ (-1)%float) fresh_world) in
  fst r = inl ValueError /\
  printed (trace (tk (snd r))) = [(10, u "Loading modules...")] /\
  displayed (trace (tk (snd r))) = [(10, u "Loading modules...")] /\
  printed (trace (tk (snd r))) <> steps.
Proof. vm_compute. repeat split; discriminate. Qed.

Lemma sample_reachable : reachable sample.
Proof. apply reach_call, reach_init. Qed.

(** C7, as amended: for every [show_splash] whose per-step delay
    [time.sleep] takes, what follows the final update (100, "Ready!") is,
    in this order: the step's own delay, the fixed hold of 0.5 seconds, the
    destruction of the window, and then the call of the callback when one
    was given.  The callback is called exactly once per run, and not at
    all when none was given. *)
Theorem show_splash_finishes (cb : option callback) (en : Env) :
  reachable en ->
  sleep_accepts (step_duration (duration (self en))) = true ->
  exists en' tr before,
    show_splash cb en = (inr tt, en') /\
    trace (tk en') = trace (tk en) ++ tr /\
    tr = before ++ shown (target en) (100, u "Ready!") ++
         [Sleep (step_duration (duration (self en))); Sleep 0.5%float;
          Destroy (target en)] ++
         match cb with Some c => [Invoke c] | None => [] end /\
    invocations tr = match cb with Some _ => 1%nat | None => 0%nat end /\
    windows (tk en') !! target en = None.
Proof.
  intros Hre Hd.
  destruct (show_splash_completes cb en (reachable_wf en Hre) Hd)
    as (en' & E & _ & Hw & Ht).
  exists en', (script en cb),
    (opening en ++ [Deiconify (target en); Update (target en)] ++
     flat_map (iteration (target en) (step_duration (duration (self en))))
              (removelast steps) ++
     [Stdout (UpdatingProgress 100 (u "Ready!"))]).
  repeat split; trivial.
  - unfold script, closing. rewrite <- !app_assoc. reflexivity.
  - unfold script, opening, closing.
    destruct (root (self en)), cb; reflexivity.
Qed.

Lemma show_splash_finishes_witness :
  reachable sample /\
  sleep_accepts (step_duration (duration (self sample))) = true /\
  exists en' tr before,
    show_splash (Some 1%nat) sample = (inr tt, en') /\
    trace (tk en') = trace (tk sample) ++ tr /\
    tr = before ++ shown (target sample) (100, u "Ready!") ++
         [Sleep (step_duration (duration (self sample))); Sleep 0.5%float;
          Destroy (target sample)] ++ [Invoke 1%nat] /\
    invocations tr = 1%nat /\
    windows (tk en') !! target sample = None.
Proof.
  split; [apply sample_reachable |]. split; [reflexivity |].
  apply (show_splash_finishes (Some 1%nat) sample);
    [apply sample_reachable | reflexivity].
Defined.

(** C7, counterexample: with the total duration -1.0 and a callback
    given, the run raises [ValueError] in its first [time.sleep]: the
    window is never destroyed and the callback is never called. *)
Lemma show_splash_negative_duration_callback :
  let r := show_splash (Some 1%nat) (mkEnv (__init__ (-1)%float) fresh_world) in
  fst r = inl ValueError /\
  invocations (trace (tk (snd r))) = 0%nat /\
  windows (tk (snd r)) !! 0%nat <> None /\
  ~ In (Destroy 0%nat) (trace (tk (snd r))).
Proof.
  vm_compute. repeat split; try discriminate.
  intros H. repeat (destruct H as [H | H]; [discriminate |]). exact H.
Qed.

(** Under the invariant [close_splash] returns, and leaves no root and
    no window. *)
Lemma close_splash_returns en :
  wf en ->
  exists en1,
    close_splash en = (inr tt, en1) /\
    root (self en1) = None /\
    (forall w, root (self en) = Some w -> windows (tk en1) !! w = None).
Proof.
  intros Hwf. destruct (root (self en)) as [r |] eqn:Hr.
  - destruct (close_splash_showing r en (Hwf r Hr)) as (e1 & E1 & Hroot & _ & Hw & _).
    exists e1. repeat split; trivial.
    intros w [= <-]. rewrite Hw. apply lookup_delete_eq.
  - exists en. rewrite close_splash_no_root by exact Hr.
    repeat split; trivial. discriminate.
Qed.

(** C8: [close_splash] twice in a row, on any controller: neither call
    raises, the first leaves the object without a root and its window
    destroyed, and the second changes nothing. *)
Theorem close_splash_twice (en : Env) :
  reachable en ->
  exists en1,
    close_splash en = (inr tt, en1) /\
    close_splash en1 = (inr tt, en1) /\
    root (self en1) = None /\
    (forall w, root (self en) = Some w -> windows (tk en1) !! w = None).
Proof.
  intros Hre.
  destruct (close_splash_returns en (reachable_wf en Hre)) as (en1 & E1 & Hroot & Hw).
  exists en1. repeat split; trivial.
  apply close_splash_no_root. exact Hroot.
Qed.

Lemma close_splash_twice_witness :
  reachable sample /\
  exists en1,
    close_splash sample = (inr tt, en1) /\
    close_splash en1 = (inr tt, en1) /\
    root (self en1) = None /\
    (forall w, root (self sample) = Some w -> windows (tk en1) !! w = None).
Proof.
  split; [apply sample_reachable |].
  apply (close_splash_twice sample). apply sample_reachable.
Defined.

(** C6, as amended: [update_progress], for every value and label, on a
    controller that has no window, that is before [create_splash] or after
    [close_splash]: the call returns without raising and leaves the object,
    every window and the output exactly as they were.  It is a silent
    no-op: no error line is written. *)
Theorem update_progress_without_window
    (value : Z) (status_text : str) (d : float) (wd : World) (en : Env) :
  reachable en ->
  update_progress value status_text (mkEnv (__init__ d) wd)
    = (inr tt, mkEnv (__init__ d) wd) /\
  exists en1,
    close_splash en = (inr tt, en1) /\
    update_progress value status_text en1 = (inr tt, en1).
Proof.
  intros Hre. split.
  - apply update_progress_no_root. reflexivity.
  - destruct (close_splash_returns en (reachable_wf en Hre)) as (en1 & E1 & Hroot & _).
    exists en1. split; [exact E1 |].
    apply update_progress_no_root. exact Hroot.
Qed.

Lemma update_progress_without_window_witness :
  reachable sample /\
  update_progress 50 (u "Loading") (mkEnv (__init__ 3%float) fresh_world)
    = (inr tt, mkEnv (__init__ 3%float) fresh_world) /\
  exists en1,
    close_splash sample = (inr tt, en1) /\
    update_progress 50 (u "Loading") en1 = (inr tt, en1).
Proof.
  split; [apply sample_reachable |].
  apply (update_progress_without_window 50 (u "Loading") 3%float fresh_world sample).
  apply sample_reachable.
Defined.

(** C6, counterexample: [update_progress] on a controller on which
    [create_splash] was never called returns and writes no error line. *)
Lemma update_progress_before_create_is_silent :
  let r := update_progress 50 (u "Loading") (mkEnv (__init__ 3%float) fresh_world) in
  fst r = inr tt /\
  existsb is_error_line (trace (tk (snd r))) = false /\
  trace (tk (snd r)) = [].
Proof. vm_compute. auto. Qed.

(** C9, as amended: the guard is in [show_splash], not in
    [create_splash].  On a controller that already has a window [w],
    [show_splash] allocates no window and the object never gets another
    root than [w]; when its delays are ones [time.sleep] takes, every
    effect of the run is on [w].  [create_splash] itself, whenever it is
    called, makes a new window and points the object at it. *)
Theorem show_splash_reuses_window (cb : option callback) (en : Env) (w : window) :
  reachable en -> root (self en) = Some w ->
  keeps w (next_window (tk en)) (snd (show_splash cb en)) /\
  (sleep_accepts (step_duration (duration (self en))) = true ->
   exists en',
     show_splash cb en = (inr tt, en') /\
     trace (tk en') = trace (tk en) ++ script en cb /\
     target en = w /\ creations (script en cb) = 0%nat) /\
  (exists en',
     create_splash en = (inr (next_window (tk en)), en') /\
     root (self en') = Some (next_window (tk en)) /\
     next_window (tk en') = S (next_window (tk en))).
Proof.
  intros Hre Hr. split; [| split].
  - rewrite show_splash_play. unfold get_self at 1. unfold bind at 1.
    rewrite Hr. unfold bind at 1. unfold ret at 1.
    apply play_preserves.
    + apply widget_call_keeps.
    + apply perform_keeps.
    + apply close_splash_keeps.
    + unfold keeps. auto.
  - intros Hd.
    destruct (show_splash_completes cb en (reachable_wf en Hre) Hd)
      as (en' & E & _ & _ & Ht).
    exists en'. repeat split; trivial.
    + unfold target. rewrite Hr. reflexivity.
    + unfold script, opening, closing. rewrite Hr. destruct cb; reflexivity.
  - destruct (create_splash_allocates en) as (en' & E & (Hroot & _) & _ & Hn & _).
    exists en'. auto.
Qed.

Lemma show_splash_reuses_window_witness :
  reachable sample /\ root (self sample) = Some 0%nat /\
  keeps 0%nat (next_window (tk sample)) (snd (show_splash None sample)) /\
  (sleep_accepts (step_duration (duration (self sample))) = true ->
   exists en',
     show_splash None sample = (inr tt, en') /\
     trace (tk en') = trace (tk sample) ++ script sample None /\
     target sample = 0%nat /\ creations (script sample None) = 0%nat) /\
  (exists en',
     create_splash sample = (inr (next_window (tk sample)), en') /\
     root (self en') = Some (next_window (tk sample)) /\
     next_window (tk en') = S (next_window (tk sample))).
Proof.
  split; [apply sample_reachable |]. split; [reflexivity |].
  apply (show_splash_reuses_window None sample 0%nat);
    [apply sample_reachable | reflexivity].
Defined.

(** C9, counterexample: a second [create_splash] on a controller that
    already has a window makes another window and drops the first, which
    stays in existence with nothing referring to it. *)
Lemma create_splash_twice_allocates :
  let e2 := snd (create_splash sample) in
  root (self sample) = Some 0%nat /\
  root (self e2) = Some 1%nat /\
  creations (trace (tk e2)) = 2%nat /\
  windows (tk e2) !! 0%nat <> None /\
  windows (tk e2) !! 1%nat <> None.
Proof. vm_compute. repeat split; discriminate. Qed.

End SplashFacts.

(** ** The emergency-contact dialog *)

Module DialogFacts.

Import Dialog.

Lemma mainloop_closed evs d : open d = false -> mainloop evs d = d.
Proof. intros H. destruct evs; simpl; [| rewrite H]; reflexivity. Qed.

Lemma mainloop_app pre post : forall d,
  mainloop (pre ++ post) d = mainloop post (mainloop pre d).
Proof.
  induction pre as [| e pre IH]; intros d; simpl.
  - reflexivity.
  - destruct (open d) eqn:Ho.
    + apply IH.
    + rewrite mainloop_closed by exact Ho. reflexivity.
Qed.

(** An event that closes the dialog ends the loop, whatever follows. *)
Lemma mainloop_closing pre e post :
  open (mainloop pre initial) = true ->
  open (dispatch e (mainloop pre initial)) = false ->
  mainloop (pre ++ e :: post) initial = dispatch e (mainloop pre initial).
Proof.
  intros Ho Hc. rewrite mainloop_app. simpl. rewrite Ho.
  apply mainloop_closed. exact Hc.
Qed.

Lemma ok_proceed_accepts d :
  10 <= len (strip (phone_entry d)) ->
  ok_proceed d =
  mkState false (phone_entry d) (whatsapp_var d)
          (mkResult (strip (phone_entry d)) (whatsapp_var d) false) (errors d).
Proof.
  intros H. unfold ok_proceed.
  destruct (Z.ltb_spec (len (strip (phone_entry d))) 10); [lia | reflexivity].
Qed.

Lemma ok_proceed_refuses d :
  len (strip (phone_entry d)) < 10 ->
  ok_proceed d =
  showerror (u "Invalid Contact")
            (u "Please enter a valid phone number with at least 10 digits.") d.
Proof.
  intros H. unfold ok_proceed.
  destruct (Z.ltb_spec (len (strip (phone_entry d))) 10); [reflexivity | lia].
Qed.

(** What is returned is read off the result record alone. *)
Lemma dispatch_same_but_errors e d1 d2 :
  same_but_errors d1 d2 -> same_but_errors (dispatch e d1) (dispatch e d2).
Proof.
  intros (Ho & Hp & Hw & Hr). destruct d1, d2; simpl in *; subst.
  destruct e; simpl; unfold same_but_errors; auto.
  unfold ok_proceed; simpl.
  destruct (len (strip phone_entry1) <? 10); simpl; auto.
Qed.

Lemma mainloop_same_but_errors evs : forall d1 d2,
  same_but_errors d1 d2 ->
  same_but_errors (mainloop evs d1) (mainloop evs d2).
Proof.
  induction evs as [| e evs IH]; intros d1 d2 H; simpl; [exact H |].
  assert (Ho : open d1 = open d2) by apply H. rewrite <- Ho.
  destruct (open d1); [| exact H].
  apply IH, dispatch_same_but_errors, H.
Qed.

Lemma mainloop_reachable evs : forall d,
  reachable d -> reachable (mainloop evs d).
Proof.
  induction evs as [| e evs IH]; intros d H; simpl; [exact H |].
  destruct (open d) eqn:Ho; [| exact H].
  apply IH. constructor; trivial.
Qed.

(** While the dialog is open the result record is still the initial one;
    once closed, a record that says cancelled has no contact. *)
Lemma reachable_result d :
  reachable d ->
  (open d = true -> result d = mkResult [] false true) /\
  (cancelled (result d) = true -> contact (result d) = []).
Proof.
  induction 1 as [| d e Hre [IHo IHc] Ho].
  - split; reflexivity.
  - specialize (IHo Ho). destruct d as [o p w r errs]. simpl in *. subst.
    destruct e; simpl; try (split; reflexivity).
    unfold ok_proceed; simpl.
    destruct (len (strip p) <? 10); simpl; split; try reflexivity; discriminate.
Qed.

Lemma show_closing pre e post :
  open (mainloop pre initial) = true ->
  open (dispatch e (mainloop pre initial)) = false ->
  show_emergency_contact_dialog (pre ++ e :: post) =
  Returned (if negb (cancelled (result (dispatch e (mainloop pre initial))))
            then Some (result (dispatch e (mainloop pre initial)))
            else None).
Proof.
  intros Ho Hc. unfold show_emergency_contact_dialog.
  rewrite mainloop_closing by assumption. rewrite Hc. reflexivity.
Qed.

(** C1: in every session, as long as the dialog is still open, a confirm
    with valid input makes the call return the result record (whose
    [cancelled] is false), and a cancel or a window close makes it return
    [None]; whatever the events, the call never returns a record whose
    [cancelled] is true. *)
Theorem show_emergency_contact_dialog_returns (pre post : list event) :
  open (mainloop pre initial) = true ->
  (10 <= len (strip (phone_entry (mainloop pre initial))) ->
   show_emergency_contact_dialog (pre ++ ClickOK :: post) =
     Returned (Some (result (ok_proceed (mainloop pre initial)))) /\
   cancelled (result (ok_proceed (mainloop pre initial))) = false) /\
  show_emergency_contact_dialog (pre ++ ClickCancel :: post) = Returned None /\
  show_emergency_contact_dialog (pre ++ WindowClose :: post) = Returned None /\
  (forall evs r,
     show_emergency_contact_dialog evs = Returned (Some r) ->
     cancelled r = false).
Proof.
  intros Ho. repeat split.
  - rewrite show_closing; trivial; simpl; rewrite ok_proceed_accepts; trivial.
  - rewrite ok_proceed_accepts; trivial.
  - rewrite show_closing; trivial.
  - rewrite show_closing; trivial.
  - intros evs r. unfold show_emergency_contact_dialog.
    destruct (open (mainloop evs initial)); [discriminate |].
    destruct (cancelled (result (mainloop evs initial))) eqn:Hc; simpl;
      [discriminate |].
    intros [= <-]. exact Hc.
Qed.

Lemma show_emergency_contact_dialog_returns_witness :
  open (mainloop [Typed (u "+91 9876543210")] initial) = true /\
  (10 <= len (strip (phone_entry (mainloop [Typed (u "+91 9876543210")] initial))) ->
   show_emergency_contact_dialog ([Typed (u "+91 9876543210")] ++ ClickOK :: []) =
     Returned (Some (result (ok_proceed (mainloop [Typed (u "+91 9876543210")] initial)))) /\
   cancelled (result (ok_proceed (mainloop [Typed (u "+91 9876543210")] initial))) = false) /\
  show_emergency_contact_dialog ([Typed (u "+91 9876543210")] ++ ClickCancel :: []) = Returned None /\
  show_emergency_contact_dialog ([Typed (u "+91 9876543210")] ++ WindowClose :: []) = Returned None /\
  (forall evs r,
     show_emergency_contact_dialog evs = Returned (Some r) ->
     cancelled r = false).
Proof.
  split; [reflexivity |].
  apply (show_emergency_contact_dialog_returns [Typed (u "+91 9876543210")] []).
  reflexivity.
Defined.

(** C3: in every session in which the user confirms while the trimmed
    entry text has at least 10 characters and the checkbox is in state
    [b], the result has [contact] the trimmed text, [whatsapp_preference]
    [b] and [cancelled] false, the dialog closes and that record is what
    the call returns; the entry "+91 9876543210" with the box ticked gives
    exactly that record. *)
Theorem ok_proceed_valid (pre post : list event) :
  open (mainloop pre initial) = true ->
  10 <= len (strip (phone_entry (mainloop pre initial))) ->
  result (ok_proceed (mainloop pre initial)) =
    mkResult (strip (phone_entry (mainloop pre initial)))
             (whatsapp_var (mainloop pre initial)) false /\
  open (ok_proceed (mainloop pre initial)) = false /\
  show_emergency_contact_dialog (pre ++ ClickOK :: post) =
    Returned (Some (mkResult (strip (phone_entry (mainloop pre initial)))
                             (whatsapp_var (mainloop pre initial)) false)) /\
  show_emergency_contact_dialog
    [Typed (u "+91 9876543210"); ToggleWhatsApp; ClickOK] =
    Returned (Some (mkResult (u "+91 9876543210") true false)).
Proof.
  intros Ho Hlen. repeat split.
  - rewrite ok_proceed_accepts; trivial.
  - rewrite ok_proceed_accepts; trivial.
  - rewrite show_closing; trivial; simpl; rewrite ok_proceed_accepts; trivial.
Qed.

Lemma ok_proceed_valid_witness :
  open (mainloop [Typed (u "  +91 98765 43210 "); ToggleWhatsApp] initial) = true /\
  10 <= len (strip (phone_entry (mainloop [Typed (u "  +91 98765 43210 "); ToggleWhatsApp] initial))) /\
  show_emergency_contact_dialog
    ([Typed (u "  +91 98765 43210 "); ToggleWhatsApp] ++ ClickOK :: [ClickCancel]) =
    Returned (Some (mkResult (u "+91 98765 43210") true false)).
Proof.
  split; [reflexivity |]. split; [vm_compute; discriminate |].
  apply (ok_proceed_valid [Typed (u "  +91 98765 43210 "); ToggleWhatsApp] [ClickCancel]);
    [reflexivity | vm_compute; discriminate].
Defined.

(** C5: in every state the dialog can be in, a result record whose
    [cancelled] is true has the empty string as its [contact]. *)
Theorem cancelled_has_no_contact (d : State) :
  reachable d -> cancelled (result d) = true -> contact (result d) = [].
Proof. intros Hre. apply reachable_result. exact Hre. Qed.

Lemma cancelled_has_no_contact_witness :
  reachable (mainloop [Typed (u "12345"); ClickOK; Typed (u "+91 9876543210"); ClickCancel] initial) /\
  cancelled (result (mainloop [Typed (u "12345"); ClickOK; Typed (u "+91 9876543210"); ClickCancel] initial)) = true /\
  contact (result (mainloop [Typed (u "12345"); ClickOK; Typed (u "+91 9876543210"); ClickCancel] initial)) = [].
Proof.
  split; [apply mainloop_reachable, reach_initial |]. split; [reflexivity |].
  apply (cancelled_has_no_contact
           (mainloop [Typed (u "12345"); ClickOK; Typed (u "+91 9876543210"); ClickCancel] initial));
    [apply mainloop_reachable, reach_initial | reflexivity].
Defined.

(** C4: a confirm while the trimmed entry text has fewer than 10
    characters shows the error box, exactly one, with the title "Invalid
    Contact" and the message asking for at least 10 digits, and changes
    nothing else: the dialog stays open with the same entry text, checkbox
    and result record; the call does not return on it, and what it returns
    later is what it would have returned without that confirm.  The refusal
    depends on the entry text only: any dialog state with the same entry
    text is refused too.  With the entry "12345" the call is still blocked
    after the confirm and that one error box has been shown. *)
Theorem ok_proceed_too_short (pre post : list event) :
  open (mainloop pre initial) = true ->
  len (strip (phone_entry (mainloop pre initial))) < 10 ->
  ok_proceed (mainloop pre initial) =
    showerror (u "Invalid Contact")
      (u "Please enter a valid phone number with at least 10 digits.")
      (mainloop pre initial) /\
  errors (ok_proceed (mainloop pre initial)) =
    errors (mainloop pre initial) ++
    [(u "Invalid Contact",
      u "Please enter a valid phone number with at least 10 digits.")] /\
  errors (mainloop (pre ++ [ClickOK]) initial) =
    errors (mainloop pre initial) ++
    [(u "Invalid Contact",
      u "Please enter a valid phone number with at least 10 digits.")] /\
  same_but_errors (ok_proceed (mainloop pre initial)) (mainloop pre initial) /\
  show_emergency_contact_dialog (pre ++ [ClickOK]) = Blocked /\
  show_emergency_contact_dialog (pre ++ ClickOK :: post) =
    show_emergency_contact_dialog (pre ++ post) /\
  (forall d', open d' = true ->
              phone_entry d' = phone_entry (mainloop pre initial) ->
              open (ok_proceed d') = true /\ result (ok_proceed d') = result d' /\
              errors (ok_proceed d') =
                errors d' ++
                [(u "Invalid Contact",
                  u "Please enter a valid phone number with at least 10 digits.")]) /\
  show_emergency_contact_dialog [Typed (u "12345"); ClickOK] = Blocked /\
  errors (mainloop [Typed (u "12345"); ClickOK] initial) =
    [(u "Invalid Contact",
      u "Please enter a valid phone number with at least 10 digits.")].
Proof.
  intros Ho Hlen.
  assert (Hs : same_but_errors (ok_proceed (mainloop pre initial)) (mainloop pre initial)).
  { rewrite ok_proceed_refuses by exact Hlen. unfold same_but_errors. auto. }
  assert (He : errors (ok_proceed (mainloop pre initial)) =
               errors (mainloop pre initial) ++
               [(u "Invalid Contact",
                 u "Please enter a valid phone number with at least 10 digits.")]).
  { rewrite ok_proceed_refuses by exact Hlen. reflexivity. }
  split; [apply ok_proceed_refuses; exact Hlen |].
  split; [exact He |].
  split; [rewrite mainloop_app; simpl; rewrite Ho; exact He |].
  split; [exact Hs |].
  split; [| split; [| split; [| split; reflexivity]]].
  - unfold show_emergency_contact_dialog. rewrite mainloop_app. simpl.
    rewrite Ho. destruct Hs as (-> & _). rewrite Ho. reflexivity.
  - unfold show_emergency_contact_dialog. rewrite !mainloop_app. simpl.
    rewrite Ho.
    destruct (mainloop_same_but_errors post _ _ Hs) as (-> & _ & _ & ->).
    reflexivity.
  - intros d' Ho' Hp. rewrite ok_proceed_refuses by (rewrite Hp; exact Hlen).
    simpl. auto.
Qed.

Lemma ok_proceed_too_short_witness :
  open (mainloop [Typed (u "12345"); ToggleWhatsApp] initial) = true /\
  len (strip (phone_entry (mainloop [Typed (u "12345"); ToggleWhatsApp] initial))) < 10 /\
  errors (mainloop [Typed (u "12345"); ToggleWhatsApp] initial) = [] /\
  errors (mainloop ([Typed (u "12345"); ToggleWhatsApp] ++ [ClickOK]) initial) =
    [(u "Invalid Contact",
      u "Please enter a valid phone number with at least 10 digits.")] /\
  show_emergency_contact_dialog ([Typed (u "12345"); ToggleWhatsApp] ++ [ClickOK]) =
    Blocked /\
  show_emergency_contact_dialog
    ([Typed (u "12345"); ToggleWhatsApp] ++
     ClickOK :: [Typed (u "+91 9876543210"); ClickOK]) =
  show_emergency_contact_dialog
    ([Typed (u "12345"); ToggleWhatsApp] ++ [Typed (u "+91 9876543210"); ClickOK]).
Proof.
  split; [reflexivity |]. split; [reflexivity |]. split; [reflexivity |].
  destruct (ok_proceed_too_short [Typed (u "12345"); ToggleWhatsApp]
              [Typed (u "+91 9876543210"); ClickOK] eq_refl eq_refl)
    as (_ & _ & Herrors & _ & Hblocked & Hlater & _).
  split; [exact Herrors |]. split; [exact Hblocked | exact Hlater].
Defined.

(** C10: the confirm counts every character of the trimmed entry text
    toward the minimum of 10, digit or not.  Whatever the characters are,
    a text whose trimmed length is at least 10 is accepted and returned
    trimmed; so are "abcdefghij" and "+ + + + + +", neither of which holds
    a digit, although the error box asks for "at least 10 digits". *)
Theorem ok_proceed_counts_every_character (text : str) :
  10 <= len (strip text) ->
  show_emergency_contact_dialog [Typed text; ClickOK] =
    Returned (Some (mkResult (strip text) false false)) /\
  show_emergency_contact_dialog [Typed (u "abcdefghij"); ClickOK] =
    Returned (Some (mkResult (u "abcdefghij") false false)) /\
  existsb is_ascii_digit (u "abcdefghij") = false /\
  show_emergency_contact_dialog [Typed (u "+ + + + + +"); ClickOK] =
    Returned (Some (mkResult (u "+ + + + + +") false false)) /\
  existsb is_ascii_digit (u "+ + + + + +") = false.
Proof.
  intros Hlen. split; [| repeat split].
  unfold show_emergency_contact_dialog. simpl.
  rewrite ok_proceed_accepts by exact Hlen. reflexivity.
Qed.

Lemma ok_proceed_counts_every_character_witness :
  10 <= len (strip (u " emergency contact ")) /\
  show_emergency_contact_dialog [Typed (u " emergency contact "); ClickOK] =
    Returned (Some (mkResult (u "emergency contact") false false)).
Proof.
  split; [vm_compute; discriminate |].
  apply (ok_proceed_counts_every_character (u " emergency contact ")).
  vm_compute; discriminate.
Defined.

End DialogFacts.

(** ** str.strip *)

Module StripFacts.

Import PyObs.

Lemma forallb_isspace_rev l :
  forallb isspace l = true -> forallb isspace (rev l) = true.
Proof.
  rewrite !forallb_forall. intros H x Hx. apply H, in_rev. exact Hx.
Qed.

Lemma lstrip_spaces l x :
  forallb isspace l = true -> lstrip (l ++ x) = lstrip x.
Proof.
  induction l as [| c l IH]; simpl; [reflexivity |].
  intros H. apply andb_prop in H as [Hc Hl]. rewrite Hc. apply IH, Hl.
Qed.

Lemma lstrip_split s :
  exists l, s = l ++ lstrip s /\ forallb isspace l = true.
Proof.
  induction s as [| c s (l & Hs & Hl)]; simpl.
  - exists []. split; reflexivity.
  - destruct (isspace c) eqn:Hc.
    + exists (c :: l). simpl. rewrite Hc, Hl. split; [congruence | reflexivity].
    + exists []. split; reflexivity.
Qed.

Lemma lstrip_starts s : starts_with_space (lstrip s) = false.
Proof.
  induction s as [| c s IH]; simpl; [reflexivity |].
  destruct (isspace c) eqn:Hc; [exact IH | simpl; exact Hc].
Qed.

Lemma lstrip_id s : starts_with_space s = false -> lstrip s = s.
Proof. destruct s as [| c s]; simpl; [reflexivity | intros ->; reflexivity]. Qed.

Lemma lstrip_app s x : lstrip s <> [] -> lstrip (s ++ x) = lstrip s ++ x.
Proof.
  induction s as [| c s IH]; simpl; [congruence |].
  destruct (isspace c); [exact IH | reflexivity].
Qed.

Lemma lstrip_all_spaces s : forallb isspace s = true -> lstrip s = [].
Proof.
  intros H. rewrite <- (app_nil_r s). rewrite lstrip_spaces by exact H. reflexivity.
Qed.

Lemma lstrip_nil s : lstrip s = [] -> forallb isspace s = true.
Proof.
  intros H. destruct (lstrip_split s) as (l & Hs & Hl).
  rewrite H, app_nil_r in Hs. subst. exact Hl.
Qed.

Lemma rstrip_split s :
  exists r, s = rstrip s ++ r /\ forallb isspace r = true.
Proof.
  destruct (lstrip_split (rev s)) as (l & Hs & Hl).
  exists (rev l). split; [| apply forallb_isspace_rev, Hl].
  unfold rstrip. rewrite <- rev_app_distr, <- Hs, rev_involutive. reflexivity.
Qed.

Lemma rstrip_ends s : ends_with_space (rstrip s) = false.
Proof.
  unfold ends_with_space, rstrip. rewrite rev_involutive. apply lstrip_starts.
Qed.

Lemma rstrip_spaces s r :
  forallb isspace r = true -> rstrip (s ++ r) = rstrip s.
Proof.
  intros H. unfold rstrip. rewrite rev_app_distr.
  rewrite lstrip_spaces by (apply forallb_isspace_rev, H). reflexivity.
Qed.

Lemma rstrip_starts s :
  starts_with_space s = false -> starts_with_space (rstrip s) = false.
Proof.
  destruct s as [| c s]; [reflexivity |]. simpl. intros Hc.
  unfold rstrip. simpl.
  destruct (lstrip (rev s)) as [| c' t] eqn:E.
  - rewrite lstrip_spaces by (apply lstrip_nil, E). simpl. rewrite Hc. simpl. exact Hc.
  - rewrite lstrip_app by congruence. rewrite rev_app_distr. simpl. exact Hc.
Qed.

Lemma rstrip_idem s : rstrip (rstrip s) = rstrip s.
Proof.
  unfold rstrip. rewrite rev_involutive.
  rewrite (lstrip_id (lstrip (rev s))) by apply lstrip_starts. reflexivity.
Qed.

(** [strip] takes whitespace off both ends and nothing else. *)
Lemma strip_split s :
  exists l r, s = l ++ strip s ++ r /\
              forallb isspace l = true /\ forallb isspace r = true.
Proof.
  destruct (lstrip_split s) as (l & Hs & Hl).
  destruct (rstrip_split (lstrip s)) as (r & Hr & Hr').
  exists l, r. unfold strip. rewrite <- Hr. auto.
Qed.

Lemma strip_trimmed s :
  starts_with_space (strip s) = false /\ ends_with_space (strip s) = false.
Proof.
  unfold strip. split; [| apply rstrip_ends].
  apply rstrip_starts, lstrip_starts.
Qed.

Lemma strip_idem s : strip (strip s) = strip s.
Proof.
  unfold strip at 1. rewrite lstrip_id by apply strip_trimmed.
  unfold strip. apply rstrip_idem.
Qed.

(** Whitespace around a text does not change what [strip] gives. *)
Lemma strip_padding l t r :
  forallb isspace l = true -> forallb isspace r = true ->
  strip (l ++ t ++ r) = strip t.
Proof.
  intros Hl Hr. unfold strip. rewrite lstrip_spaces by exact Hl.
  destruct (lstrip t) as [| c t'] eqn:E.
  - rewrite lstrip_spaces by (apply lstrip_nil, E).
    rewrite lstrip_all_spaces by exact Hr. reflexivity.
  - rewrite lstrip_app by congruence. rewrite E. apply rstrip_spaces, Hr.
Qed.

End StripFacts.

(** ** More on the emergency-contact dialog *)

Module DialogMore.

Import PyObs Dialog DialogObs DialogFacts StripFacts.

(** While the loop leaves the dialog open, the entry holds the text typed
    last, the checkbox has been flipped once per click, and the result
    record has not been written. *)
Lemma mainloop_open evs : forall d,
  open (mainloop evs d) = true ->
  open d = true /\
  phone_entry (mainloop evs d) = entry_after evs (phone_entry d) /\
  whatsapp_var (mainloop evs d) = checked_after evs (whatsapp_var d) /\
  result (mainloop evs d) = result d.
Proof.
  induction evs as [| e evs IH]; intros d H; simpl in *.
  - auto.
  - destruct (open d) eqn:Ho; [| congruence].
    destruct (IH _ H) as (Ho' & Hp & Hw & Hr).
    split; [reflexivity |]. rewrite Hp, Hw, Hr.
    destruct e; simpl in *; auto.
    + unfold ok_proceed in *.
      destruct (len (strip (phone_entry d)) <? 10); simpl in *; [auto | discriminate].
    + discriminate.
    + discriminate.
Qed.

(** A record that does not say cancelled was written by a valid confirm:
    it holds the trimmed entry text, at least 10 characters long, and the
    state of the checkbox, and the dialog is closed. *)
Lemma reachable_confirmed d :
  reachable d -> cancelled (result d) = false ->
  open d = false /\
  contact (result d) = strip (phone_entry d) /\
  10 <= len (contact (result d)) /\
  whatsapp_preference (result d) = whatsapp_var d.
Proof.
  induction 1 as [| d e Hre IH Ho]; [discriminate |].
  destruct (reachable_result d Hre) as [Hinit _]. specialize (Hinit Ho).
  destruct d as [o p w r errs]. simpl in *. subst.
  destruct e; simpl; try discriminate.
  unfold ok_proceed; simpl.
  destruct (Z.ltb_spec (len (strip p)) 10); simpl; [discriminate |].
  intros _. auto.
Qed.

Lemma dispatch_same_but_padding e d1 d2 :
  same_but_padding d1 d2 -> same_but_padding (dispatch e d1) (dispatch e d2).
Proof.
  intros (Ho & Hp & Hw & Hr & He).
  destruct d1 as [o1 p1 w1 r1 e1], d2 as [o2 p2 w2 r2 e2]. simpl in *. subst.
  destruct e; simpl; unfold same_but_padding; simpl; auto.
  unfold ok_proceed; simpl. rewrite Hp.
  destruct (len (strip p2) <? 10); simpl; rewrite ?Hp; auto.
Qed.

Lemma mainloop_same_but_padding evs : forall d1 d2,
  same_but_padding d1 d2 ->
  same_but_padding (mainloop evs d1) (mainloop evs d2).
Proof.
  induction evs as [| e evs IH]; intros d1 d2 H; simpl; [exact H |].
  assert (Ho : open d1 = open d2) by apply H. rewrite <- Ho.
  destruct (open d1); [| exact H].
  apply IH, dispatch_same_but_padding, H.
Qed.

(** X2: what a valid confirm returns is fixed by the events before it: the
    contact is the trimmed text of the last edit of the entry (of the
    default "+91 " if it was never edited), and the preference is true
    exactly when the checkbox was clicked an odd number of times; refused
    confirms in between leave no mark. *)
Theorem confirm_returns_last_edit (pre post : list event) :
  open (mainloop pre initial) = true ->
  10 <= len (strip (entry_after pre (u "+91 "))) ->
  show_emergency_contact_dialog (pre ++ ClickOK :: post) =
  Returned (Some (mkResult (strip (entry_after pre (u "+91 ")))
                           (checked_after pre false) false)).
Proof.
  intros Ho Hlen.
  destruct (mainloop_open pre initial Ho) as (_ & Hp & Hw & _).
  simpl in Hp, Hw.
  rewrite show_closing; trivial.
  - simpl. rewrite ok_proceed_accepts by (rewrite Hp; exact Hlen).
    simpl. rewrite Hp, Hw. reflexivity.
  - simpl. rewrite ok_proceed_accepts by (rewrite Hp; exact Hlen). reflexivity.
Qed.

Lemma confirm_returns_last_edit_witness :
  open (mainloop [ToggleWhatsApp; Typed (u "12345"); ClickOK; ToggleWhatsApp;
                  Typed (u "+91 9876543210"); ToggleWhatsApp] initial) = true /\
  10 <= len (strip (entry_after
                      [ToggleWhatsApp; Typed (u "12345"); ClickOK; ToggleWhatsApp;
                       Typed (u "+91 9876543210"); ToggleWhatsApp] (u "+91 "))) /\
  show_emergency_contact_dialog
    ([ToggleWhatsApp; Typed (u "12345"); ClickOK; ToggleWhatsApp;
      Typed (u "+91 9876543210"); ToggleWhatsApp] ++ ClickOK :: []) =
  Returned (Some (mkResult (u "+91 9876543210") true false)).
Proof.
  split; [reflexivity |]. split; [vm_compute; discriminate |].
  apply (confirm_returns_last_edit
           [ToggleWhatsApp; Typed (u "12345"); ClickOK; ToggleWhatsApp;
            Typed (u "+91 9876543210"); ToggleWhatsApp] []);
    [reflexivity | vm_compute; discriminate].
Defined.

(** X3: whenever the call returns a record, its contact is the entry text
    with whitespace taken off both ends and nothing else: the entry is the
    contact between two runs of whitespace, the contact neither begins nor
    ends with whitespace, trimming it again changes nothing, and it has at
    least 10 characters; the preference is the state of the checkbox. *)
Theorem returned_contact_is_trimmed (evs : list event) (r : ContactResult) :
  show_emergency_contact_dialog evs = Returned (Some r) ->
  (exists l t,
     phone_entry (mainloop evs initial) = l ++ contact r ++ t /\
     forallb isspace l = true /\ forallb isspace t = true) /\
  starts_with_space (contact r) = false /\
  ends_with_space (contact r) = false /\
  strip (contact r) = contact r /\
  10 <= len (contact r) /\
  whatsapp_preference r = whatsapp_var (mainloop evs initial).
Proof.
  unfold show_emergency_contact_dialog.
  destruct (open (mainloop evs initial)) eqn:Ho; [discriminate |].
  destruct (cancelled (result (mainloop evs initial))) eqn:Hc; [discriminate |].
  simpl. intros [= <-].
  destruct (reachable_confirmed (mainloop evs initial)
              (mainloop_reachable evs initial reach_initial) Hc)
    as (_ & Hcontact & Hlen & Hpref).
  rewrite Hcontact in *.
  split; [apply strip_split |].
  split; [apply strip_trimmed |].
  split; [apply strip_trimmed |].
  split; [apply strip_idem |]. auto.
Qed.

Lemma returned_contact_is_trimmed_witness :
  show_emergency_contact_dialog [Typed (u "  +91 98765 43210 "); ClickOK]
    = Returned (Some (mkResult (u "+91 98765 43210") false false)) /\
  strip (u "+91 98765 43210") = u "+91 98765 43210" /\
  10 <= len (u "+91 98765 43210").
Proof.
  split; [reflexivity |].
  destruct (returned_contact_is_trimmed [Typed (u "  +91 98765 43210 "); ClickOK]
              (mkResult (u "+91 98765 43210") false false) eq_refl)
    as (_ & _ & _ & Hstrip & Hlen & _).
  split; [exact Hstrip | exact Hlen].
Defined.

(** X4: whitespace typed before or after the number makes no difference:
    a session in which the entry is edited to a text with whitespace
    around it returns what it returns with the bare text, whatever happens
    before and after that edit. *)
Theorem padding_makes_no_difference (pre post : list event) (l text t : str) :
  forallb isspace l = true -> forallb isspace t = true ->
  show_emergency_contact_dialog (pre ++ Typed (l ++ text ++ t) :: post) =
  show_emergency_contact_dialog (pre ++ Typed text :: post).
Proof.
  intros Hl Ht. unfold show_emergency_contact_dialog.
  rewrite !mainloop_app. simpl.
  destruct (open (mainloop pre initial)) eqn:Ho; [| reflexivity].
  set (d := mainloop pre initial).
  assert (H : same_but_padding
                (mkState true (l ++ text ++ t) (whatsapp_var d) (result d) (errors d))
                (mkState true text (whatsapp_var d) (result d) (errors d))).
  { unfold same_but_padding; simpl. rewrite strip_padding by assumption. auto. }
  destruct (mainloop_same_but_padding post _ _ H) as (-> & _ & _ & -> & _).
  reflexivity.
Qed.

Lemma padding_makes_no_difference_witness :
  forallb isspace (u "  ") = true /\ forallb isspace [9%N; 160%N; 12288%N] = true /\
  show_emergency_contact_dialog
    ([ToggleWhatsApp] ++ Typed (u "  " ++ u "+91 9876543210" ++ [9%N; 160%N; 12288%N]) :: [ClickOK]) =
  show_emergency_contact_dialog
    ([ToggleWhatsApp] ++ Typed (u "+91 9876543210") :: [ClickOK]).
Proof.
  split; [reflexivity |]. split; [reflexivity |].
  apply (padding_makes_no_difference [ToggleWhatsApp] [ClickOK]
           (u "  ") (u "+91 9876543210") [9%N; 160%N; 12288%N]);
    reflexivity.
Defined.

(** X19: editing alone never ends the dialog: after any number of edits
    of the entry and clicks on the checkbox the call is still blocked, no
    error box has been shown and the result record is untouched. *)
Theorem edits_never_close (evs : list event) :
  forallb is_edit evs = true ->
  show_emergency_contact_dialog evs = Blocked /\
  result (mainloop evs initial) = result initial /\
  errors (mainloop evs initial) = [].
Proof.
  intros H.
  assert (G : forall d, open d = true ->
            open (mainloop evs d) = true /\
            result (mainloop evs d) = result d /\
            errors (mainloop evs d) = errors d).
  { induction evs as [| e evs IH]; intros d Ho; simpl; [auto |].
    simpl in H. apply andb_prop in H as [He H]. rewrite Ho.
    destruct e; try discriminate;
      (match goal with |- context [mainloop evs ?d'] =>
         apply (IH H d'); exact Ho end). }
  destruct (G initial eq_refl) as (Ho & Hr & He).
  unfold show_emergency_contact_dialog. rewrite Ho. auto.
Qed.

Lemma edits_never_close_witness :
  forallb is_edit [Typed (u "+91 9876543210"); ToggleWhatsApp; Typed []] = true /\
  show_emergency_contact_dialog
    [Typed (u "+91 9876543210"); ToggleWhatsApp; Typed []] = Blocked.
Proof.
  split; [reflexivity |].
  apply (edits_never_close [Typed (u "+91 9876543210"); ToggleWhatsApp; Typed []]).
  reflexivity.
Defined.



End DialogMore.

(** ** More on the splash controller *)

Module SplashMore.

Import TkOps Splash SplashSpec SplashObs MonadFacts SplashFacts.

(** *** What a method leaves alone *)

Lemma widget_call_same w f e (s0 : SplashScreen) (n : window) (D : gset window) :
  preserves (fun en => self en = s0 /\ next_window (tk en) = n /\
                       dom (windows (tk en)) = D)
            (in_tk (widget_call w f e)).
Proof.
  intros en (Hs & Hn & Hd). unfold in_tk, widget_call.
  destruct (windows (tk en) !! w) as [sf |] eqn:Hw; simpl; [| auto].
  repeat split; trivial. rewrite <- Hd. apply dom_insert_lookup_L. eauto.
Qed.

Lemma perform_same e (s0 : SplashScreen) (n : window) (D : gset window) :
  preserves (fun en => self en = s0 /\ next_window (tk en) = n /\
                       dom (windows (tk en)) = D)
            (in_tk (perform e)).
Proof. intros en H. exact H. Qed.

Lemma widget_call_duration w f e d :
  preserves (fun en => duration (self en) = d) (in_tk (widget_call w f e)).
Proof.
  intros en H. unfold in_tk, widget_call.
  destruct (windows (tk en) !! w); simpl; [exact H | destruct en; exact H].
Qed.

Lemma close_splash_duration d :
  preserves (fun en => duration (self en) = d) close_splash.
Proof.
  intros [s wd] H. simpl in *.
  unfold close_splash, get_self, bind, in_tk, destroy, set_root, set_self, modify.
  simpl. destruct (root s) as [r |]; simpl; [| exact H].
  destruct (windows wd !! r); simpl; exact H.
Qed.

Lemma create_splash_duration d :
  preserves (fun en => duration (self en) = d) create_splash.
Proof.
  intros en H. destruct (create_splash_allocates en) as (en' & E & _ & Hd & _).
  rewrite E. simpl. congruence.
Qed.

(** No method changes the duration the object was built with. *)
Lemma run_method_duration m en :
  duration (self (snd (run_method m en))) = duration (self en).
Proof.
  apply (run_method_preserves (fun e => duration (self e) = duration (self en))).
  - intros w f e. apply widget_call_duration.
  - intros e e0 H. exact H.
  - apply close_splash_duration.
  - apply create_splash_duration.
  - reflexivity.
Qed.

Section Frame.
Variable O : window -> Prop.
Variable m0 : gmap window Surface.

Lemma widget_call_framed w f e :
  O w -> preserves (framed O m0) (in_tk (widget_call w f e)).
Proof.
  intros HO en [Ha Hf]. unfold in_tk, widget_call.
  destruct (windows (tk en) !! w) as [sf |] eqn:Hw; simpl.
  - split; [exact Ha |]. simpl. intros w' Hw'.
    rewrite lookup_insert_ne by (intros ->; contradiction). apply Hf, Hw'.
  - destruct en. split; assumption.
Qed.

Lemma perform_framed e : preserves (framed O m0) (in_tk (perform e)).
Proof. intros en H. exact H. Qed.

Lemma update_progress_framed value status_text :
  preserves (framed O m0) (update_progress value status_text).
Proof.
  intros en H. assert (Ha := proj1 H). revert H.
  unfold update_progress. unfold get_self at 1. unfold bind at 1.
  destruct (progress_var (self en)) as [pv |] eqn:Hp; [| auto].
  destruct (status_label (self en)) as [sl |] eqn:Hl; [| auto].
  destruct (root (self en)) as [r |] eqn:Hr; [| auto].
  assert (Opv : O pv) by (apply Ha; unfold owned; auto).
  assert (Osl : O sl) by (apply Ha; unfold owned; auto).
  assert (Or : O r) by (apply Ha; unfold owned; auto).
  apply preserves_try.
  - apply preserves_bind; [apply widget_call_framed, Opv | intros _].
    apply preserves_bind.
    + destruct (truthy status_text); [| apply preserves_ret].
      apply preserves_bind; [| intros _]; apply widget_call_framed, Osl.
    + intros _. apply preserves_bind; [| intros _]; apply widget_call_framed, Or.
  - intros e. apply perform_framed.
Qed.

Lemma close_splash_framed : preserves (framed O m0) close_splash.
Proof.
  intros [s wd] [Ha Hf]. simpl in *.
  unfold close_splash, get_self, bind, in_tk, destroy, set_root, set_self, modify.
  simpl. destruct (root s) as [r |] eqn:Hr; simpl; [| split; assumption].
  destruct (windows wd !! r) eqn:Hw; simpl; [| split; assumption].
  assert (Or : O r) by (apply Ha; unfold owned; simpl; auto).
  split; simpl.
  - intros w [Hw' | Hw']; [discriminate | apply Ha; unfold owned; simpl; auto].
  - intros w Hw'. rewrite lookup_delete_ne by (intros ->; contradiction).
    apply Hf, Hw'.
Qed.

Lemma play_framed cb : preserves (framed O m0) (play cb).
Proof.
  intros en H. assert (Ha := proj1 H). revert H.
  unfold play. unfold get_self at 1. unfold bind at 1.
  apply preserves_bind.
  { destruct (root (self en)) as [r |] eqn:Hr; [| apply preserves_raise].
    assert (Or : O r) by (apply Ha; unfold owned; auto).
    apply preserves_bind; [| intros _]; apply widget_call_framed, Or. }
  intros _. apply preserves_bind; [intros e H; exact H | intros s'].
  cbn zeta. apply preserves_bind.
  { apply preserves_for_each. intros [p t].
    apply preserves_bind; [apply perform_framed | intros _].
    apply preserves_bind; [apply update_progress_framed | intros _].
    apply time_sleep_preserves, perform_framed. }
  intros _. apply preserves_bind; [apply time_sleep_preserves, perform_framed | intros _].
  apply preserves_bind; [apply close_splash_framed | intros _].
  destruct cb; [apply perform_framed | apply preserves_ret].
Qed.
End Frame.

(** Through any method, a window the object's calls do not go to, and that
    is not the one [create_splash] is about to make, is neither destroyed
    nor created. *)
Lemma run_method_framed m en w :
  ~ owned en w -> w <> next_window (tk en) ->
  (is_Some (windows (tk (snd (run_method m en))) !! w) <->
   is_Some (windows (tk en) !! w)).
Proof.
  intros Hw Hn.
  set (O := fun x => owned en x \/ x = next_window (tk en)).
  assert (H0 : framed O (windows (tk en)) en).
  { split; [intros x Hx; left; exact Hx | reflexivity]. }
  assert (HO : ~ O w) by (intros [H | H]; contradiction).
  assert (Hcreate : framed O (windows (tk en)) (snd (create_splash en))).
  { destruct (create_splash_allocates en)
      as (e1 & E1 & (Hr & Hp & Hl & _) & _ & _ & _ & _ & Hf).
    rewrite E1. simpl. split.
    - intros x [Hx | [Hx | Hx]]; right; congruence.
    - intros x Hx. rewrite Hf; [reflexivity |].
      intros ->. apply Hx. right. reflexivity. }
  assert (H : framed O (windows (tk en)) (snd (run_method m en))).
  { destruct m; simpl.
    - unfold bind. destruct (create_splash en) as [[e | a] e1]; exact Hcreate.
    - apply update_progress_framed, H0.
    - rewrite show_splash_play. unfold get_self at 1. unfold bind at 1.
      destruct (root (self en)) as [r |] eqn:Hr.
      + unfold bind at 1. unfold ret at 1. apply play_framed, H0.
      + unfold bind at 1. unfold bind at 1.
        destruct (create_splash en) as [[e | a] e1]; simpl in *; [exact Hcreate |].
        apply play_framed, Hcreate.
    - apply close_splash_framed, H0. }
  apply H, HO.
Qed.

(** *** update_progress *)

(** X6: [update_progress] never raises, in whatever state the object and
    its windows are: a failing toolkit call is caught.  It never changes
    an attribute of the object, and never creates or destroys a window. *)
Theorem update_progress_never_raises (value : Z) (label : str) (en : Env) :
  fst (update_progress value label en) = inr tt /\
  self (snd (update_progress value label en)) = self en /\
  next_window (tk (snd (update_progress value label en))) = next_window (tk en) /\
  dom (windows (tk (snd (update_progress value label en)))) = dom (windows (tk en)).
Proof.
  split.
  - unfold update_progress. unfold get_self at 1. unfold bind at 1.
    destruct (progress_var (self en)), (status_label (self en)), (root (self en));
      try reflexivity.
    unfold try_except.
    match goal with |- context [match ?m en with _ => _ end] =>
      destruct (m en) as [[e | []] en1] end; reflexivity.
  - apply (update_progress_preserves
             (fun e => self e = self en /\ next_window (tk e) = next_window (tk en) /\
                       dom (windows (tk e)) = dom (windows (tk en)))).
    + intros w f e. apply widget_call_same.
    + intros e. apply perform_same.
    + auto.
Qed.

(** X7: on a controller in any state it can get into, with root [w],
    [update_progress] makes these calls and no other, and none of them
    fails: it sets the progress variable to the value, as given; then, only
    when the label is not empty, it configures the status label with it
    and updates the label; then it runs the idle tasks and the update of
    the root.  With an empty label the status label is not touched.  The
    object's attributes stay as they are. *)
Theorem update_progress_calls
    (w : window) (value : Z) (label : str) (en : Env) :
  reachable en -> root (self en) = Some w ->
  exists en',
    update_progress value label en = (inr tt, en') /\
    self en' = self en /\
    trace (tk en') =
      trace (tk en) ++ VarSet w value ::
      (if truthy label then [LabelConfig w label; LabelUpdate w] else []) ++
      [UpdateIdletasks w; Update w].
Proof.
  intros Hre Hroot.
  destruct (reachable_wf en Hre w Hroot) as (Hr & Hp & Hl & [sf Hw]).
  destruct en as [s wd]. simpl in *.
  unfold update_progress, get_self, bind, try_except, in_tk, var_set,
    label_config, label_update, update_idletasks, update, widget_call, ret.
  simpl. rewrite Hp, Hl, Hr. simpl. rewrite Hw. simpl.
  destruct (truthy label); simpl;
    repeat (rewrite lookup_insert_eq; simpl);
    eexists; (split; [reflexivity |]); simpl;
    rewrite <- ?app_assoc; split; reflexivity.
Qed.

Lemma update_progress_calls_witness :
  reachable sample /\ root (self sample) = Some 0%nat /\
  exists en',
    update_progress 40 [] sample = (inr tt, en') /\
    self en' = self sample /\
    trace (tk en') =
      trace (tk sample) ++ [VarSet 0%nat 40; UpdateIdletasks 0%nat; Update 0%nat].
Proof.
  split; [apply sample_reachable |]. split; [reflexivity |].
  apply (update_progress_calls 0%nat 40 [] sample);
    [apply sample_reachable | reflexivity].
Defined.

(** *** show_splash when time.sleep refuses the delay *)

Lemma sleep_check_kind secs e :
  sleep_check secs = Some e -> e = ValueError \/ e = OverflowError.
Proof.
  unfold sleep_check.
  destruct (is_nan secs); [intros [= <-]; auto |].
  destruct (negb _); [intros [= <-]; auto |].
  destruct (secs <? 0)%float; [intros [= <-]; auto | discriminate].
Qed.

Lemma time_sleep_refused secs en :
  sleep_accepts secs = false ->
  exists e, in_tk (time_sleep secs) en = (inl e, en) /\
            (e = ValueError \/ e = OverflowError).
Proof.
  unfold sleep_accepts, time_sleep. intros H.
  destruct (sleep_check secs) as [e |] eqn:E; [| discriminate].
  exists e. split; [destruct en; reflexivity | apply (sleep_check_kind secs), E].
Qed.

Lemma play_aborts cb w en :
  showing w en ->
  sleep_accepts (step_duration (duration (self en))) = false ->
  exists e en',
    play cb en = (inl e, en') /\
    (e = ValueError \/ e = OverflowError) /\
    runs ([Deiconify w; Update w;
           Stdout (UpdatingProgress 10 (u "Loading modules..."))] ++
          shown w (10, u "Loading modules...")) en en'.
Proof.
  intros Hsh Hd.
  destruct (widget_call_live w (with_mapped true) (Deiconify w) en
              (proj2 (proj2 (proj2 Hsh)))) as (e1 & E1 & R1).
  assert (S1 := showing_runs _ _ _ _ Hsh R1).
  destruct (widget_call_live w (fun s => s) (Update w) e1
              (proj2 (proj2 (proj2 S1)))) as (e2 & E2 & R2).
  assert (S2 := showing_runs _ _ _ _ S1 R2).
  assert (D2 : duration (self e2) = duration (self en)).
  { destruct R1 as (H1 & _), R2 as (H2 & _). rewrite H2, H1. reflexivity. }
  destruct (perform_runs (Stdout (UpdatingProgress 10 (u "Loading modules..."))) e2)
    as [E3 R3].
  set (e3 := mkEnv (self e2)
               (emit (Stdout (UpdatingProgress 10 (u "Loading modules..."))) (tk e2))) in *.
  assert (S3 := showing_runs _ _ _ _ S2 R3).
  destruct (update_progress_showing w 10 (u "Loading modules...") e3 S3 eq_refl)
    as (e4 & E4 & R4).
  destruct (time_sleep_refused (step_duration (duration (self en))) e4 Hd)
    as (e & E5 & He).
  exists e, e4. split; [| split; [exact He |]].
  - unfold play. unfold get_self at 1. unfold bind at 1.
    destruct Hsh as (Hr & _). rewrite Hr.
    rewrite (bind_returns _ _ en tt e2).
    + unfold get_self at 1. unfold bind at 1. cbn zeta. rewrite D2.
      apply bind_raises. unfold steps. cbn [for_each].
      apply bind_raises. unfold print.
      rewrite (bind_returns _ _ _ _ _ E3).
      rewrite (bind_returns _ _ _ _ _ E4). exact E5.
    + unfold deiconify, update. rewrite (bind_returns _ _ _ _ _ E1). exact E2.
  - change ([Deiconify w; Update w;
             Stdout (UpdatingProgress 10 (u "Loading modules..."))] ++
            shown w (10, u "Loading modules..."))
      with ([Deiconify w] ++ [Update w] ++
            [Stdout (UpdatingProgress 10 (u "Loading modules..."))] ++
            shown w (10, u "Loading modules...")).
    eauto using runs_app.
Qed.

(** A run whose delay [time.sleep] refuses stops in its first iteration. *)
Lemma show_splash_refused (cb : option callback) (en : Env) :
  reachable en ->
  sleep_accepts (step_duration (duration (self en))) = false ->
  exists e en',
    show_splash cb en = (inl e, en') /\
    (e = ValueError \/ e = OverflowError) /\
    trace (tk en') = trace (tk en) ++ aborted en /\
    root (self en') = Some (target en) /\
    is_Some (windows (tk en') !! target en) /\
    invocations (aborted en) = 0%nat /\
    printed (aborted en) = [(10, u "Loading modules...")].
Proof.
  intros Hre Hd. assert (Hwf := reachable_wf en Hre).
  rewrite show_splash_play. unfold get_self at 1. unfold bind at 1.
  unfold aborted, target, opening.
  destruct (root (self en)) as [r |] eqn:Hr.
  - destruct (play_aborts cb r en (Hwf r Hr) Hd) as (e & e' & E & He & R).
    assert (Hsh := showing_runs _ _ _ _ (Hwf r Hr) R).
    destruct R as (_ & _ & _ & _ & Ht).
    exists e, e'. unfold bind, ret. rewrite E.
    repeat split; trivial; apply Hsh.
  - destruct (create_splash_allocates en) as (e0 & E0 & S0 & D0 & _ & _ & T0 & _).
    rewrite <- D0 in Hd.
    destruct (play_aborts cb _ e0 S0 Hd) as (e & e' & E & He & R).
    assert (Hsh := showing_runs _ _ _ _ S0 R).
    destruct R as (_ & _ & _ & _ & Ht).
    exists e, e'. rewrite (bind_returns _ _ en tt e0).
    + rewrite E. repeat split; trivial; try apply Hsh.
      rewrite Ht, T0, <- !app_assoc. reflexivity.
    + rewrite (bind_returns _ _ _ _ _ E0). reflexivity.
Qed.

(** X9: when [time.sleep] refuses the per-step delay (a negative, NaN or
    too large duration), [show_splash] raises that [ValueError] or
    [OverflowError] out of its first iteration: the first step is on
    display and nothing more, the window stays in existence with the object
    still referring to it, and the callback is not called. *)
Theorem show_splash_aborts (cb : option callback) (en : Env) :
  reachable en ->
  sleep_accepts (step_duration (duration (self en))) = false ->
  exists e en',
    show_splash cb en = (inl e, en') /\
    (e = ValueError \/ e = OverflowError) /\
    trace (tk en') = trace (tk en) ++ aborted en /\
    root (self en') = Some (target en) /\
    is_Some (windows (tk en') !! target en) /\
    invocations (aborted en) = 0%nat /\
    printed (aborted en) = [(10, u "Loading modules...")].
Proof. apply show_splash_refused. Qed.

Lemma show_splash_aborts_witness :
  reachable (snd (run_method CreateSplash (mkEnv (__init__ nan) fresh_world))) /\
  sleep_accepts (step_duration nan) = false /\
  exists e en',
    show_splash (Some 1%nat) (snd (run_method CreateSplash (mkEnv (__init__ nan) fresh_world)))
      = (inl e, en') /\
    (e = ValueError \/ e = OverflowError) /\
    root (self en') = Some 0%nat.
Proof.
  split; [apply reach_call, reach_init |]. split; [reflexivity |].
  destruct (show_splash_aborts (Some 1%nat)
              (snd (run_method CreateSplash (mkEnv (__init__ nan) fresh_world))))
    as (e & en' & E & He & _ & Hr & _).
  - apply reach_call, reach_init.
  - reflexivity.
  - exists e, en'. auto.
Defined.

(** *** Runs that complete *)




(** X11: in a [show_splash] that completes, the percentages put on display
    go strictly up, each lies between 0 and 100 (the maximum of the progress
    bar), the last one is 100, and every one comes with a non-empty label,
    so that each step replaces the status text. *)
Theorem show_splash_progress_increases (cb : option callback) (en : Env) :
  reachable en ->
  sleep_accepts (step_duration (duration (self en))) = true ->
  exists en' tr,
    show_splash cb en = (inr tt, en') /\
    trace (tk en') = trace (tk en) ++ tr /\
    StronglySorted Z.lt (map fst (displayed tr)) /\
    Forall (fun p => 0 < p <= 100) (map fst (displayed tr)) /\
    last (map fst (displayed tr)) = Some 100 /\
    Forall (fun t => truthy t = true) (map snd (displayed tr)).
Proof.
  intros Hre Hd.
  destruct (show_splash_completes cb en (reachable_wf en Hre) Hd)
    as (en' & E & _ & _ & Ht).
  exists en', (script en cb). rewrite displayed_script.
  split; [exact E |]. split; [exact Ht |].
  split.
  { simpl. repeat (apply SSorted_cons;
                   [| repeat (constructor; [lia |]); constructor]).
    apply SSorted_nil. }
  split; [simpl; repeat (constructor; [lia |]); constructor |].
  split; [reflexivity |].
  simpl; repeat (constructor; [reflexivity |]); constructor.
Qed.

Lemma show_splash_progress_increases_witness :
  reachable sample /\
  sleep_accepts (step_duration (duration (self sample))) = true /\
  exists en' tr,
    show_splash None sample = (inr tt, en') /\
    trace (tk en') = trace (tk sample) ++ tr /\
    StronglySorted Z.lt (map fst (displayed tr)) /\
    Forall (fun p => 0 < p <= 100) (map fst (displayed tr)) /\
    last (map fst (displayed tr)) = Some 100 /\
    Forall (fun t => truthy t = true) (map snd (displayed tr)).
Proof.
  split; [apply sample_reachable |]. split; [reflexivity |].
  apply (show_splash_progress_increases None sample);
    [apply sample_reachable | reflexivity].
Defined.

(** X12: a controller can be shown again.  After a [show_splash] that
    completed the object has no root, so a second [show_splash] makes a new
    window through [create_splash], plays the same seven steps on it and
    leaves the object without a root again. *)
Theorem show_splash_again (cb1 cb2 : option callback) (en : Env) :
  reachable en ->
  sleep_accepts (step_duration (duration (self en))) = true ->
  exists en1 en2,
    show_splash cb1 en = (inr tt, en1) /\
    show_splash cb2 en1 = (inr tt, en2) /\
    trace (tk en2) = trace (tk en) ++ script en cb1 ++ script en1 cb2 /\
    target en1 = next_window (tk en1) /\
    creations (script en1 cb2) = 1%nat /\
    printed (script en1 cb2) = steps /\
    root (self en2) = None.
Proof.
  intros Hre Hd.
  destruct (show_splash_completes cb1 en (reachable_wf en Hre) Hd)
    as (en1 & E1 & Hr1 & _ & Ht1).
  assert (Hre1 : reachable en1).
  { change en1 with (snd (inr (A := exn) tt, en1)). rewrite <- E1.
    apply (reach_call en (ShowSplash cb1)), Hre. }
  assert (Hd1 : duration (self en1) = duration (self en)).
  { change en1 with (snd (inr (A := exn) tt, en1)). rewrite <- E1.
    apply (run_method_duration (ShowSplash cb1)). }
  rewrite <- Hd1 in Hd.
  destruct (show_splash_completes cb2 en1 (reachable_wf en1 Hre1) Hd)
    as (en2 & E2 & Hr2 & _ & Ht2).
  exists en1, en2. repeat split; trivial.
  - rewrite Ht2, Ht1, <- app_assoc. reflexivity.
  - unfold target. rewrite Hr1. reflexivity.
  - unfold script, opening, closing. rewrite Hr1. destruct cb2; reflexivity.
  - apply printed_script.
Qed.

Lemma show_splash_again_witness :
  reachable (mkEnv (__init__ 3%float) fresh_world) /\
  sleep_accepts (step_duration 3%float) = true /\
  exists en1 en2,
    show_splash None (mkEnv (__init__ 3%float) fresh_world) = (inr tt, en1) /\
    show_splash (Some 1%nat) en1 = (inr tt, en2) /\
    trace (tk en2) =
      trace fresh_world ++ script (mkEnv (__init__ 3%float) fresh_world) None ++
      script en1 (Some 1%nat) /\
    target en1 = next_window (tk en1) /\
    creations (script en1 (Some 1%nat)) = 1%nat /\
    printed (script en1 (Some 1%nat)) = steps /\
    root (self en2) = None.
Proof.
  split; [constructor |]. split; [reflexivity |].
  apply (show_splash_again None (Some 1%nat) (mkEnv (__init__ 3%float) fresh_world));
    [constructor | reflexivity].
Defined.

(** *** Windows *)

(** X13: in every state a controller can get into, a root the object
    refers to is a window that exists, and the progress variable and the
    status label are the ones made for that window: [close_splash] never
    leaves a dangling root behind. *)
Theorem root_is_a_window (en : Env) (w : window) :
  reachable en -> root (self en) = Some w ->
  is_Some (windows (tk en) !! w) /\
  progress_var (self en) = Some w /\
  status_label (self en) = Some w.
Proof.
  intros Hre Hr. destruct (reachable_wf en Hre w Hr) as (_ & Hp & Hl & Hw). auto.
Qed.

Lemma root_is_a_window_witness :
  reachable (snd (run_method (UpdateProgress 40 (u "Loading AI models...")) sample)) /\
  root (self (snd (run_method (UpdateProgress 40 (u "Loading AI models...")) sample)))
    = Some 0%nat /\
  is_Some (windows (tk (snd (run_method (UpdateProgress 40 (u "Loading AI models...")) sample)))
             !! 0%nat) /\
  progress_var (self (snd (run_method (UpdateProgress 40 (u "Loading AI models...")) sample)))
    = Some 0%nat /\
  status_label (self (snd (run_method (UpdateProgress 40 (u "Loading AI models...")) sample)))
    = Some 0%nat.
Proof.
  split; [apply reach_call, sample_reachable |]. split; [reflexivity |].
  apply (root_is_a_window
           (snd (run_method (UpdateProgress 40 (u "Loading AI models...")) sample)) 0%nat);
    [apply reach_call, sample_reachable | reflexivity].
Defined.

(** X14: no method of a controller destroys or creates a window that is
    not its own: through [create_splash], [update_progress], [show_splash]
    and [close_splash], whether they return or raise, a window other than
    those the object refers to and the one [create_splash] makes exists
    afterwards exactly when it existed before. *)
Theorem other_windows_stay (m : method) (en : Env) (w : window) :
  ~ owned en w -> w <> next_window (tk en) ->
  (is_Some (windows (tk (snd (run_method m en))) !! w) <->
   is_Some (windows (tk en) !! w)).
Proof. apply run_method_framed. Qed.

Lemma other_windows_stay_witness :
  ~ owned (mkEnv (__init__ 3%float) (tk sample)) 0%nat /\
  0%nat <> next_window (tk sample) /\
  is_Some (windows (tk sample) !! 0%nat) /\
  is_Some (windows (tk (snd (run_method (ShowSplash None)
                               (mkEnv (__init__ 3%float) (tk sample))))) !! 0%nat).
Proof.
  assert (H : ~ owned (mkEnv (__init__ 3%float) (tk sample)) 0%nat).
  { intros [H | [H | H]]; discriminate. }
  assert (Hlive : is_Some (windows (tk sample) !! 0%nat)).
  { eexists. reflexivity. }
  split; [exact H |]. split; [discriminate |]. split; [exact Hlive |].
  apply (other_windows_stay (ShowSplash None)
           (mkEnv (__init__ 3%float) (tk sample)) 0%nat);
    [exact H | discriminate | exact Hlive].
Defined.

Lemma show_splash_fresh_next cb en :
  root (self en) = None ->
  next_window (tk (snd (show_splash cb en))) = S (next_window (tk en)).
Proof.
  intros Hr. rewrite show_splash_play. unfold get_self at 1. unfold bind at 1.
  rewrite Hr.
  destruct (create_splash_allocates en) as (e0 & E0 & (Hr0 & _) & _ & Hn0 & _).
  rewrite (bind_returns _ _ en tt e0)
    by (rewrite (bind_returns _ _ _ _ _ E0); reflexivity).
  apply (play_preserves (keeps (next_window (tk en)) (S (next_window (tk en))))).
  - intros w f e. apply widget_call_keeps.
  - intros e. apply perform_keeps.
  - apply close_splash_keeps.
  - split; auto.
Qed.

Lemma sample_tidy : tidy (tk sample).
Proof.
  intros w Hle. change (next_window (tk sample)) with 1%nat in Hle.
  destruct (create_splash_allocates (mkEnv (__init__ 3%float) fresh_world))
    as (e1 & E1 & _ & _ & _ & _ & _ & F).
  assert (Hs : sample = e1).
  { unfold sample. simpl. unfold bind. rewrite E1. reflexivity. }
  rewrite Hs, F by (simpl; lia). apply lookup_empty.
Qed.

(** X15: [show_splash_screen] called without a callback leaves no window
    behind.  When [time.sleep] takes the per-step delay, on a world in
    which the window identifiers not yet handed out are not in use, the
    call returns, the windows in existence are exactly those from before
    the call, one window identifier has been used, and the world is fit
    for the next call in the same way. *)
Theorem show_splash_screen_leaves_no_window (d : float) (wd : World) :
  sleep_accepts (step_duration d) = true ->
  tidy wd ->
  exists wd',
    show_splash_screen d None wd = (inr tt, wd') /\
    dom (windows wd') = dom (windows wd) /\
    next_window wd' = S (next_window wd) /\
    tidy wd' /\
    trace wd' = trace wd ++ script (mkEnv (__init__ d) wd) None.
Proof.
  intros Hd Htidy. set (en := mkEnv (__init__ d) wd).
  assert (Hwf : wf en) by (intros w Hw; discriminate).
  destruct (show_splash_completes None en Hwf Hd) as (en' & E & _ & Hw & Ht).
  assert (Hlive : forall w, is_Some (windows (tk en') !! w) <-> is_Some (windows wd !! w)).
  { intros w. destruct (decide (w = next_window wd)) as [-> | Hne].
    - assert (H1 : windows (tk en') !! next_window wd = None) by exact Hw.
      assert (H2 : windows wd !! next_window wd = None) by (apply Htidy; lia).
      rewrite H1, H2. reflexivity.
    - assert (H := run_method_framed (ShowSplash None) en w).
      simpl in H. rewrite E in H. apply H; [| exact Hne].
      intros [H' | [H' | H']]; discriminate. }
  assert (Hnext : next_window (tk en') = S (next_window wd)).
  { assert (H := show_splash_fresh_next None en eq_refl). rewrite E in H. exact H. }
  exists (tk en'). unfold show_splash_screen. fold en. rewrite E.
  split; [reflexivity |].
  split; [apply set_eq; intros w; rewrite !elem_of_dom; apply Hlive |].
  split; [exact Hnext |]. split; [| exact Ht].
  intros w Hle. rewrite Hnext in Hle.
  apply eq_None_not_Some. intros HS. apply Hlive in HS.
  assert (H2 : windows wd !! w = None) by (apply Htidy; lia).
  destruct HS as [x Hx].
  assert (Hno : Some x = None) by (etransitivity; [symmetry; exact Hx | exact H2]).
  discriminate.
Qed.

Lemma show_splash_screen_leaves_no_window_witness :
  sleep_accepts (step_duration 3%float) = true /\
  tidy (tk sample) /\
  exists wd',
    show_splash_screen 3%float None (tk sample) = (inr tt, wd') /\
    dom (windows wd') = dom (windows (tk sample)) /\
    next_window wd' = S (next_window (tk sample)) /\
    tidy wd' /\
    trace wd' = trace (tk sample) ++ script (mkEnv (__init__ 3%float) (tk sample)) None.
Proof.
  split; [reflexivity |]. split; [apply sample_tidy |].
  apply (show_splash_screen_leaves_no_window 3%float (tk sample));
    [reflexivity | apply sample_tidy].
Defined.

(** X16: [create_splash] followed by [close_splash] undoes the window:
    when the next window identifier is not in use, both calls return, the
    windows in existence are again exactly those from before, and the
    object has no root. *)
Theorem create_then_close (en : Env) :
  windows (tk en) !! next_window (tk en) = None ->
  exists en1 en2,
    create_splash en = (inr (next_window (tk en)), en1) /\
    close_splash en1 = (inr tt, en2) /\
    windows (tk en2) = windows (tk en) /\
    root (self en2) = None /\
    trace (tk en2) =
      trace (tk en) ++ created (next_window (tk en)) (screen (tk en)) ++
      [Destroy (next_window (tk en))].
Proof.
  intros Hfresh.
  destruct (create_splash_allocates en) as (e1 & E1 & S1 & _ & _ & _ & T1 & F1).
  destruct (close_splash_showing _ e1 S1) as (e2 & E2 & Hr & _ & Hw & _ & T2).
  exists e1, e2. repeat split; trivial.
  - apply map_eq. intros w. rewrite Hw.
    destruct (decide (w = next_window (tk en))) as [-> | Hne].
    + rewrite lookup_delete_eq, Hfresh. reflexivity.
    + rewrite lookup_delete_ne by congruence. apply F1, Hne.
  - rewrite T2, T1, <- app_assoc. reflexivity.
Qed.

Lemma create_then_close_witness :
  windows (tk sample) !! next_window (tk sample) = None /\
  exists en1 en2,
    create_splash sample = (inr (next_window (tk sample)), en1) /\
    close_splash en1 = (inr tt, en2) /\
    windows (tk en2) = windows (tk sample) /\
    root (self en2) = None /\
    trace (tk en2) =
      trace (tk sample) ++ created (next_window (tk sample)) (screen (tk sample)) ++
      [Destroy (next_window (tk sample))].
Proof.
  split; [reflexivity |]. apply (create_then_close sample). reflexivity.
Defined.

End SplashMore.

(** ** Where the windows are put *)

Module GeometryFacts.

Import TkOps Splash SplashSpec DialogObs SplashFacts.

Lemma create_splash_surface en :
  exists en',
    create_splash en = (inr (next_window (tk en)), en') /\
    windows (tk en') !! next_window (tk en) =
    Some (mkSurface 0 (u "Initializing...") false
            (500, 500, (fst (screen (tk en)) - 500) / 2,
             (snd (screen (tk en)) - 500) / 2)).
Proof.
  destruct en as [s wd].
  unfold create_splash, bind, in_tk, Tk_new, set_root, set_progress_var,
    set_progress_bar, set_status_label, set_self, modify, winfo_screen,
    wm_geometry, label_config, widget_call, ret.
  cbn. rewrite lookup_insert_eq. cbn. rewrite lookup_insert_eq. cbn.
  eexists. split; [reflexivity |]. cbn. rewrite lookup_insert_eq. reflexivity.
Qed.

Lemma halves a : 0 <= (a - a / 2) - a / 2 <= 1.
Proof.
  pose proof (Z.div_mod a 2 ltac:(lia)) as H.
  pose proof (Z.mod_pos_bound a 2 ltac:(lia)) as H'. lia.
Qed.

(** X17: both windows are centred on the screen, whatever its size.  The
    window [create_splash] makes is 500 by 500 and the dialog 450 by 550;
    for each, the margin right of it exceeds the margin left of it by 0 or
    1 pixel, and likewise below and above, also on a screen smaller than
    the window, where the margins are negative.  The new splash window
    shows progress 0 and the text "Initializing...". *)
Theorem windows_are_centred (en : Env) :
  let sw := fst (screen (tk en)) in
  let sh := snd (screen (tk en)) in
  (exists en' x y,
     create_splash en = (inr (next_window (tk en)), en') /\
     windows (tk en') !! next_window (tk en) =
       Some (mkSurface 0 (u "Initializing...") false (500, 500, x, y)) /\
     0 <= (sw - 500 - x) - x <= 1 /\
     0 <= (sh - 500 - y) - y <= 1) /\
  (exists x y,
     dialog_geometry (screen (tk en)) = (450, 550, x, y) /\
     0 <= (sw - 450 - x) - x <= 1 /\
     0 <= (sh - 550 - y) - y <= 1).
Proof.
  intros sw sh. split.
  - destruct (create_splash_surface en) as (en' & E & Hw).
    exists en', ((sw - 500) / 2), ((sh - 500) / 2).
    split; [exact E |]. split; [exact Hw |].
    split; [apply (halves (sw - 500)) | apply (halves (sh - 500))].
  - exists ((sw - 450) / 2), ((sh - 550) / 2).
    split; [reflexivity |].
    split; [apply (halves (sw - 450)) | apply (halves (sh - 550))].
Qed.

End GeometryFacts.
